(** * GoBarber backend: the appointment controller

    A shallow embedding of [backend/src/app/controllers/AppointmentController.js]
    (the [store] and [delete] actions routed in [backend/src/routes.js] as
    [POST /appointment] and [DELETE /appointment/:id]) and the properties of
    booking and cancellation that the controller guarantees.

    Conventions of the embedding.
    - A JavaScript [Date] is the integer number of milliseconds since the
      epoch, a [Z].  [new Date()] is an input of the action (the clock reading).
    - A database table is a finite map from the primary key to the row.
    - An action is a computation over the database that either goes on, sends
      the HTTP response (every [return res...] of the source) or raises a
      JavaScript exception that nothing in the controller catches.
    - The request body holds, for each of the two fields of the Yup schema,
      [None] when the field is missing or is not of the required type.  The
      [provider_id] keeps its JSON type: the schema casts, so it accepts a
      number and also a string that reads as a number, and the controller
      goes on with the raw value.  The [date] is the instant it parses to. *)

From Stdlib Require Import ZArith String.
From stdpp Require Import gmap strings list fin_maps sorting.

Local Open Scope Z_scope.

(** ** Data model *)

(** A row of [users] (models/User), the columns the controller reads. *)
Record User := {
  name : string;
  email : string;
  provider : bool;
}.

(** A row of [appointments] (models/Appointment); the primary key [id] is the
    key of the table. *)
Record Appointment := {
  user_id : Z;
  provider_id : Z;
  date : Z;
  canceled_at : option Z;
}.

(** A document of the [Notification] schema. *)
Record Notification := {
  content : string;
  user : Z;
}.

(** What [Appointment.findByPk(id, { include: [provider, user] })] loads: the
    row under its key and the two joined users, restricted to the listed
    attributes ([name], [email] of the provider, [name] of the client). *)
Record ModelInstance := {
  id : Z;
  row : Appointment;
  inc_provider : option (string * string);
  inc_user : option string;
}.

(** The only job kind the controller enqueues, [CancelationMail.key]. *)
Inductive JobKey := CancelationMail_key.

Record Job := {
  job_key : JobKey;
  job_appointment : ModelInstance;
}.

Record DB := {
  users : gmap Z User;
  appointments : gmap Z Appointment;
  appointments_seq : Z;
  notifications : list Notification;
  queue : list Job;
}.

(** ** Requests and responses *)

(** A [provider_id] that [Yup.number().required()] accepts: a JSON number,
    here the integer [n], or a JSON string that casts to a number, here the
    decimal numeral of [n].  The schema does not convert [req.body]. *)
Inductive JsonId :=
| json_number (n : Z)
| json_string (n : Z).

(** The integer the ORM and the notification schema store for the value. *)
Definition column_value (v : JsonId) : Z :=
  match v with
  | json_number n => n
  | json_string n => n
  end.

(** [v === userId], where [userId] is a number: a string is never strictly
    equal to it. *)
Definition strict_equal (v : JsonId) (userId : Z) : bool :=
  match v with
  | json_number n => n =? userId
  | json_string _ => false
  end.

Record StoreBody := {
  body_provider_id : option JsonId;
  body_date : option Z;
}.

Inductive Json :=
| error (msg : string)
| appointment_json (a : ModelInstance).

Record Response := {
  status : Z;
  json : Json;
}.

Inductive Exception := TypeError | QueueError.

Inductive Outcome (A : Type) :=
| Next (a : A)
| Sent (r : Response)
| Raised (e : Exception).
Arguments Next {A} a.
Arguments Sent {A} r.
Arguments Raised {A} e.

(** ** The action monad: state, early response, exception *)

Definition Action (A : Type) : Type := DB → Outcome A * DB.

#[global] Instance action_ret : MRet Action := λ A a db, (Next a, db).

#[global] Instance action_bind : MBind Action := λ A B k m db,
  match m db with
  | (Next a, db') => k a db'
  | (Sent r, db') => (Sent r, db')
  | (Raised e, db') => (Raised e, db')
  end.

(** [return res.status(s).json(j)] *)
Definition respond {A} (s : Z) (j : Json) : Action A :=
  λ db, (Sent {| status := s; json := j |}, db).

Definition throw {A} (e : Exception) : Action A := λ db, (Raised e, db).

(** ** date-fns *)

Definition HOUR : Z := 3600000.
Definition DAY : Z := 86400000.

Definition isBefore (d1 d2 : Z) : bool := d1 <? d2.
Definition subHours (d amount : Z) : Z := d - amount * HOUR.

(** ** Sequelize and the queue *)

(** [Model.findOne({ where })]: some row that satisfies the clause. *)
Definition findOne {A} (where_ : A → bool) (t : gmap Z A) : option (Z * A) :=
  List.find (λ kv, where_ kv.2) (map_to_list t).

Definition is_null {A} (o : option A) : bool :=
  match o with None => true | Some _ => false end.

(** [User.findOne({ where: { id, provider: true } })] *)
Definition User_findOne_provider (pid : Z) : Action (option User) :=
  λ db,
    (Next (match users db !! pid with
           | Some u => if provider u then Some u else None
           | None => None
           end), db).

Definition User_findByPk (uid : Z) : Action (option User) :=
  λ db, (Next (users db !! uid), db).

Definition Appointment_findOne (where_ : Appointment → bool)
  : Action (option (Z * Appointment)) :=
  λ db, (Next (findOne where_ (appointments db)), db).

(** [Appointment.create({ user_id, provider_id, date })]: the row is stored
    under the next value of the key sequence, [canceled_at] is null. *)
Definition Appointment_create (uid pid d : Z) : Action ModelInstance :=
  λ db,
    let k := appointments_seq db in
    let a := {| user_id := uid; provider_id := pid; date := d;
                canceled_at := None |} in
    (Next {| id := k; row := a; inc_provider := None; inc_user := None |},
     {| users := users db;
        appointments := <[k := a]> (appointments db);
        appointments_seq := k + 1;
        notifications := notifications db;
        queue := queue db |}).

Definition Notification_create (n : Notification) : Action unit :=
  λ db,
    (Next tt,
     {| users := users db;
        appointments := appointments db;
        appointments_seq := appointments_seq db;
        notifications := notifications db ++ [n];
        queue := queue db |}).

Definition Appointment_findByPk_include (k : Z) : Action (option ModelInstance) :=
  λ db,
    (Next (match appointments db !! k with
           | Some a =>
               Some {| id := k; row := a;
                       inc_provider :=
                         (λ u, (name u, email u)) <$> users db !! provider_id a;
                       inc_user := name <$> users db !! user_id a |}
           | None => None
           end), db).

(** [appointment.save()] *)
Definition Appointment_save (i : ModelInstance) : Action unit :=
  λ db,
    (Next tt,
     {| users := users db;
        appointments := <[id i := row i]> (appointments db);
        appointments_seq := appointments_seq db;
        notifications := notifications db;
        queue := queue db |}).

(** [await Queue.add(key, { appointment })].  lib/Queue is not part of the
    controller; [ok] tells whether the promise it returns is fulfilled (the
    job is appended) or rejected (the [await] raises). *)
Definition Queue_add (ok : bool) (k : JobKey) (i : ModelInstance) : Action unit :=
  λ db,
    if ok then
      (Next tt,
       {| users := users db;
          appointments := appointments db;
          appointments_seq := appointments_seq db;
          notifications := notifications db;
          queue := queue db ++ [{| job_key := k; job_appointment := i |}] |})
    else (Raised QueueError, db).

(** [appointment.canceled_at = d] *)
Definition set_canceled_at (i : ModelInstance) (d : Z) : ModelInstance :=
  {| id := id i;
     row := {| user_id := user_id (row i); provider_id := provider_id (row i);
               date := date (row i); canceled_at := Some d |};
     inc_provider := inc_provider i;
     inc_user := inc_user i |}.

(** ** The controller *)

Section AppointmentController.

(** The server's offset from UTC in milliseconds: date-fns truncates in local
    time. *)
Variable tz : Z.

(** [format(d, "'dia' dd 'de' MMMM', ás' H:mm'h'", { locale: pt })] *)
Variable format_pt : Z → string.

Definition startOfHour (d : Z) : Z := d - (d + tz) `mod` HOUR.
Definition startOfDay (d : Z) : Z := d - (d + tz) `mod` DAY.
Definition endOfDay (d : Z) : Z := startOfDay d + DAY - 1.

(** The [where] clause of [checkAvailability]. *)
Definition where_slot (pid hourStart : Z) (a : Appointment) : bool :=
  (provider_id a =? pid) && is_null (canceled_at a) && (date a =? hourStart).

(** The [where] clause of [checkUserHaveAppointment]. *)
Definition where_user_day (uid parsedDate : Z) (a : Appointment) : bool :=
  (user_id a =? uid) && is_null (canceled_at a)
  && ((startOfDay parsedDate <=? date a) && (date a <=? endOfDay parsedDate)).

(** [schema.isValid(req.body)] *)
Definition schema_isValid (b : StoreBody) : bool :=
  negb (is_null (body_provider_id b)) && negb (is_null (body_date b)).

(** [async store(req, res)]; [now] is the reading of [new Date()].  The outer
    [match] is the guard on [schema.isValid] followed by the destructuring of
    [req.body]: both fields are present exactly when the schema holds.  The
    self-booking guard compares the raw [provider_id]; the ORM and the
    notification schema take the integer it denotes. *)
Definition store (userId : Z) (body : StoreBody) (now : Z)
  : Action Empty_set :=
  match body_provider_id body, body_date body with
  | Some provider_id, Some parsedDate =>
      if strict_equal provider_id userId then
        respond 400 (error "You can not create a appointment with yourself!!!")
      else
        isProvider ← User_findOne_provider (column_value provider_id);
        if is_null isProvider then
          respond 400
            (error "You can only create appointments with providers!!!")
        else
          let hourStart := startOfHour parsedDate in
          if isBefore hourStart now then
            respond 400 (error "Past date are not permited!!!")
          else
            checkAvailability ←
              Appointment_findOne
                (where_slot (column_value provider_id) hourStart);
            if negb (is_null checkAvailability) then
              respond 400 (error "Appointment date not available!!!")
            else
              checkUserHaveAppointment ←
                Appointment_findOne (where_user_day userId parsedDate);
              if negb (is_null checkUserHaveAppointment) then
                respond 400
                  (error "You already have a appointment that day!!!")
              else
                appointment ←
                  Appointment_create userId (column_value provider_id)
                    hourStart;
                u ← User_findByPk userId;
                match u with
                | None => throw TypeError
                | Some u =>
                    let formattedDate := format_pt hourStart in
                    Notification_create
                      {| content :=
                           ("Novo agendamento de " ++ name u ++ " para "
                            ++ formattedDate)%string;
                         user := column_value provider_id |};;
                    respond 200 (appointment_json appointment)
                end
  | _, _ => respond 400 (error "Validation Fail!!!")
  end.

(** [async delete(req, res)]; [now1] and [now2] are the two readings of
    [new Date()], in the order the action takes them. *)
Definition delete (userId : Z) (params_id : Z) (now1 now2 : Z)
    (queue_ok : bool) : Action Empty_set :=
  appointment ← Appointment_findByPk_include params_id;
  match appointment with
  | None => throw TypeError
  | Some appointment =>
      if negb (user_id (row appointment) =? userId) then
        respond 401
          (error "You don't have permission to cancel this appointment!!!")
      else
        let dateWithSub := subHours (date (row appointment)) 2 in
        if isBefore dateWithSub now1 then
          respond 401
            (error "You can only cancel appointment 2 hours in advance!!!")
        else if negb (is_null (canceled_at (row appointment))) then
          respond 401 (error "This appointment Already canceled!!!")
        else
          let appointment := set_canceled_at appointment now2 in
          Appointment_save appointment;;
          Queue_add queue_ok CancelationMail_key appointment;;
          respond 200 (appointment_json appointment)
  end.

End AppointmentController.

(** ** routes.js: the two routes of the controller that write *)

Inductive Call :=
| POST_appointment (userId : Z) (body : StoreBody) (now : Z)
| DELETE_appointment (userId params_id now1 now2 : Z) (queue_ok : bool).

Definition dispatch (tz : Z) (format_pt : Z → string) (c : Call)
  : Action Empty_set :=
  match c with
  | POST_appointment userId body now => store tz format_pt userId body now
  | DELETE_appointment userId k now1 now2 queue_ok =>
      delete userId k now1 now2 queue_ok
  end.

(** The requests are served one after the other; the database after them. *)
Fixpoint serve (tz : Z) (format_pt : Z → string) (cs : list Call) (db : DB)
  : DB :=
  match cs with
  | [] => db
  | c :: cs => serve tz format_pt cs (dispatch tz format_pt c db).2
  end.

(** ** Vocabulary of the specification *)

Inductive StoreError :=
| ValidationError
| SelfBooking
| NotAProvider
| PastDate
| SlotTaken
| DuplicateSameDayBooking.

(** The response the controller sends for each rejection of a booking. *)
Definition store_error (e : StoreError) : Response :=
  {| status := 400;
     json := error
       match e with
       | ValidationError => "Validation Fail!!!"
       | SelfBooking => "You can not create a appointment with yourself!!!"
       | NotAProvider => "You can only create appointments with providers!!!"
       | PastDate => "Past date are not permited!!!"
       | SlotTaken => "Appointment date not available!!!"
       | DuplicateSameDayBooking =>
           "You already have a appointment that day!!!"
       end |}.

Inductive DeleteError := Forbidden | TooLateToCancel | AlreadyCanceled.

Definition delete_error (e : DeleteError) : Response :=
  {| status := 401;
     json := error
       match e with
       | Forbidden =>
           "You don't have permission to cancel this appointment!!!"
       | TooLateToCancel =>
           "You can only cancel appointment 2 hours in advance!!!"
       | AlreadyCanceled => "This appointment Already canceled!!!"
       end |}.

(** [res.json(appointment)] *)
Definition ok (i : ModelInstance) : Response :=
  {| status := 200; json := appointment_json i |}.

(** An appointment is active when it is not canceled. *)
Definition active (a : Appointment) : Prop := canceled_at a = None.

(** No two active appointments share the provider and the hour. *)
Definition slot_exclusive (t : gmap Z Appointment) : Prop :=
  ∀ i j a b,
    t !! i = Some a → t !! j = Some b →
    active a → active b →
    provider_id a = provider_id b → date a = date b →
    i = j.

(** Some active appointment of provider [pid] starts at [h]. *)
Definition occupied (pid h : Z) (t : gmap Z Appointment) : Prop :=
  ∃ k a, t !! k = Some a ∧ provider_id a = pid ∧ active a ∧ date a = h.

(** Every key in use was handed out by the sequence. *)
Definition keys_below_seq (db : DB) : Prop :=
  ∀ k a, appointments db !! k = Some a → k < appointments_seq db.

(** The row [store] persists. *)
Definition booked (userId pid hourStart : Z) : Appointment :=
  {| user_id := userId; provider_id := pid; date := hourStart;
     canceled_at := None |}.

(** The five checks of the specification's Conflict Checker, in its order,
    each with the reason it rejects with; [true] means the check passes. *)
Definition booking_checks (tz : Z) (clientId providerId requestedTime now : Z)
    (db : DB) : list (bool * StoreError) :=
  [ (negb (providerId =? clientId), SelfBooking);
    (match users db !! providerId with
     | Some u => provider u
     | None => false
     end, NotAProvider);
    (negb (startOfHour tz requestedTime <? now), PastDate);
    (is_null (findOne (where_slot providerId (startOfHour tz requestedTime))
                (appointments db)), SlotTaken);
    (is_null (findOne (where_user_day tz clientId requestedTime)
                (appointments db)), DuplicateSameDayBooking) ].

(** First failing check wins. *)
Definition first_failing (cs : list (bool * StoreError)) : option StoreError :=
  snd <$> List.find (λ c, negb c.1) cs.

(** ** Derived notions used in the statements *)

(** The five checks as [store] evaluates them: the first one is the strict
    equality on the raw [provider_id], the other four are those of the
    specification on the integer it denotes. *)
Definition code_checks (tz : Z) (userId : Z) (v : JsonId) (t now : Z) (db : DB)
  : list (bool * StoreError) :=
  (negb (strict_equal v userId), SelfBooking)
  :: tail (booking_checks tz userId (column_value v) t now db).

(** The database after [Appointment.create] in [store]. *)
Definition after_create (db : DB) (userId pid hourStart : Z) : DB :=
  {| users := users db;
     appointments :=
       <[appointments_seq db := booked userId pid hourStart]> (appointments db);
     appointments_seq := appointments_seq db + 1;
     notifications := notifications db;
     queue := queue db |}.

(** The instance [Appointment.create] returns in [store]. *)
Definition created (db : DB) (userId pid hourStart : Z) : ModelInstance :=
  {| id := appointments_seq db; row := booked userId pid hourStart;
     inc_provider := None; inc_user := None |}.

(** What [store] does once the five checks have passed. *)
Definition accept (format_pt : Z → string) (db : DB) (userId pid hourStart : Z)
  : Outcome Empty_set * DB :=
  match users db !! userId with
  | None => (Raised TypeError, after_create db userId pid hourStart)
  | Some u =>
      (Sent (ok (created db userId pid hourStart)),
       {| users := users db;
          appointments :=
            <[appointments_seq db := booked userId pid hourStart]>
              (appointments db);
          appointments_seq := appointments_seq db + 1;
          notifications :=
            notifications db ++
              [{| content :=
                    ("Novo agendamento de " ++ name u ++ " para "
                     ++ format_pt hourStart)%string;
                  user := pid |}];
          queue := queue db |})
  end.

(** The instance [delete] answers with and saves. *)
Definition loaded (db : DB) (k : Z) (a : Appointment) : ModelInstance :=
  {| id := k; row := a;
     inc_provider := (λ u, (name u, email u)) <$> users db !! provider_id a;
     inc_user := name <$> users db !! user_id a |}.

Definition after_save (db : DB) (i : ModelInstance) : DB :=
  {| users := users db;
     appointments := <[id i := row i]> (appointments db);
     appointments_seq := appointments_seq db;
     notifications := notifications db;
     queue := queue db |}.

Definition after_enqueue (db : DB) (i : ModelInstance) : DB :=
  {| users := users db;
     appointments := <[id i := row i]> (appointments db);
     appointments_seq := appointments_seq db;
     notifications := notifications db;
     queue := queue db ++
                [{| job_key := CancelationMail_key; job_appointment := i |}] |}.

(** The user [pid] exists and is flagged as a provider. *)
Definition is_provider (pid : Z) (db : DB) : Prop :=
  ∃ u, users db !! pid = Some u ∧ provider u = true.

(** The client has an active appointment on the local day of [t]. *)
Definition same_day_booked (tz : Z) (userId t : Z) (tbl : gmap Z Appointment)
  : Prop :=
  ∃ k a, tbl !! k = Some a ∧ user_id a = userId ∧ active a
         ∧ startOfDay tz t ≤ date a ≤ endOfDay tz t.

(** The target of a cancellation that passes the first and the last guard:
    row [a] is stored under [k], belongs to the requester and is active. *)
Definition cancelable_by (userId k : Z) (a : Appointment) (db : DB) : Prop :=
  appointments db !! k = Some a ∧ user_id a = userId ∧ canceled_at a = None.

(** The cancellation went through: the response is the canceled instance. *)
Definition cancel_succeeds (out : Outcome Empty_set * DB) : Prop :=
  ∃ i, out.1 = Sent (ok i).

(** ** Sample data: the scenario of the specification *)

(** 2025-01-10T14:00:00Z *)
Definition jan10_14h : Z := 1736517600000.

Definition fmt0 (d : Z) : string := "dia 10 de janeiro"%string.

Definition ana : User :=
  {| name := "Ana"; email := "ana@gobarber.com"; provider := false |}.
Definition bia : User :=
  {| name := "Bia"; email := "bia@gobarber.com"; provider := true |}.
Definition caio : User :=
  {| name := "Caio"; email := "caio@gobarber.com"; provider := false |}.

(** Three users, of which 2 is a provider; no appointment yet. *)
Definition db_empty : DB :=
  {| users := <[1 := ana]> (<[2 := bia]> (<[3 := caio]> ∅));
     appointments := ∅;
     appointments_seq := 1;
     notifications := [];
     queue := [] |}.

(** Ana (1) has booked Bia (2) at 14:00. *)
Definition db_booked : DB :=
  {| users := users db_empty;
     appointments := <[1 := booked 1 2 jan10_14h]> ∅;
     appointments_seq := 2;
     notifications := [];
     queue := [] |}.

(** The same appointment, canceled the day before. *)
Definition db_canceled : DB :=
  {| users := users db_empty;
     appointments :=
       <[1 := {| user_id := 1; provider_id := 2; date := jan10_14h;
                 canceled_at := Some (jan10_14h - DAY) |}]> ∅;
     appointments_seq := 2;
     notifications := [];
     queue := [] |}.

(** A body that passes the schema. *)
Definition request_body (v : JsonId) (t : Z) : StoreBody :=
  {| body_provider_id := Some v; body_date := Some t |}.

(** The same with the [provider_id] sent as a number. *)
Definition valid_body (pid t : Z) : StoreBody :=
  request_body (json_number pid) t.

(** ** The listing of appointments *)

(** The avatar joined to a provider, with the listed attributes. *)
Record AvatarJson := {
  avatar_id : Z;
  avatar_path : string;
  avatar_url : string;
}.

(** The provider joined to a listed appointment. *)
Record ProviderJson := {
  listed_provider_id : Z;
  listed_provider_name : string;
  listed_avatar : option AvatarJson;
}.

(** An element of the array [index] answers with: the attributes [id],
    [date], [past], [cancelable] and the included provider. *)
Record Listed := {
  listed_id : Z;
  listed_date : Z;
  listed_past : bool;
  listed_cancelable : bool;
  listed_provider : option ProviderJson;
}.

(** [order: ['date']] *)
Definition by_date (x y : Z * Appointment) : Prop := date x.2 ≤ date y.2.

#[global] Instance by_date_dec : RelDecision by_date :=
  λ x y, decide (date x.2 ≤ date y.2).

(** [Appointment.findAll({ where, order: ['date'], limit, offset })], for an
    offset that is not negative. *)
Definition findAll_page (where_ : Appointment → bool) (limit offset : Z)
    (t : gmap Z Appointment) : list (Z * Appointment) :=
  take (Z.to_nat limit)
    (drop (Z.to_nat offset)
       (merge_sort by_date
          (List.filter (λ kv, where_ kv.2) (map_to_list t)))).

(** The [where] clause of [index]. *)
Definition where_index (userId : Z) (a : Appointment) : bool :=
  (user_id a =? userId) && is_null (canceled_at a).

Section AppointmentIndex.

(** The virtual attributes [past] and [cancelable] of models/Appointment, as
    the getters compute them when the row is serialized. *)
Variable past cancelable : Appointment → bool.

(** The avatar of a user, through [avatar_id] and models/File. *)
Variable avatar : Z → option AvatarJson.

(** [async index(req, res)], the array it answers with; [query_page] is
    [req.query.page], [None] when the query has none.  The statements below
    are about pages from 1 on, where the offset is not negative. *)
Definition index (userId : Z) (query_page : option Z) (db : DB)
  : list Listed :=
  let page := default 1 query_page in
  (λ kv : Z * Appointment,
     {| listed_id := kv.1;
        listed_date := date kv.2;
        listed_past := past kv.2;
        listed_cancelable := cancelable kv.2;
        listed_provider :=
          (λ u, {| listed_provider_id := provider_id kv.2;
                   listed_provider_name := name u;
                   listed_avatar := avatar (provider_id kv.2) |})
            <$> users db !! provider_id kv.2 |})
    <$> findAll_page (where_index userId) 20 ((page - 1) * 20)
          (appointments db).

End AppointmentIndex.

(** ** routes.js: the router *)

Inductive Method := GET | HEAD | POST | PUT | DELETE.

Inductive Middleware := authMiddleware | upload_single_file.

Inductive Handler :=
| UserController_store
| UserController_update
| SessionController_store
| FileController_store
| ProviderController_index
| AvailableController_index
| AppointmentController_index
| AppointmentController_store
| AppointmentController_delete
| ScheduleController_index
| NotificationController_index
| NotificationController_update.

(** A layer of the router's stack: [routes.METHOD(path, ...middlewares,
    handler)] or [routes.use(middleware)]. *)
Inductive Layer :=
| Route (m : Method) (path : string) (mws : list Middleware) (h : Handler)
| Use (mw : Middleware).

(** The stack, in the order routes.js registers it. *)
Definition routes : list Layer :=
  [ Route POST "/users" [] UserController_store;
    Route POST "/sessions" [] SessionController_store;
    Use authMiddleware;
    Route PUT "/users" [] UserController_update;
    Route POST "/files" [upload_single_file] FileController_store;
    Route GET "/providers" [] ProviderController_index;
    Route GET "/providers/:providerId/available" [] AvailableController_index;
    Route GET "/appointment" [] AppointmentController_index;
    Route POST "/appointment" [] AppointmentController_store;
    Route DELETE "/appointment/:id" [] AppointmentController_delete;
    Route GET "/schedule" [] ScheduleController_index;
    Route GET "/notifications" [] NotificationController_index;
    Route PUT "/notifications/:id" [] NotificationController_update ].

(** Where a request ends: in a controller action, in a middleware that does
    not pass it on, or past the end of the stack.  The request methods are
    the four of the routes and HEAD. *)
Inductive Routed :=
| Handled (h : Handler)
| Stopped (mw : Middleware)
| Unrouted.

Definition Method_eqb (m1 m2 : Method) : bool :=
  match m1, m2 with
  | GET, GET | HEAD, HEAD | POST, POST | PUT, PUT | DELETE, DELETE => true
  | _, _ => false
  end.

(** A route handles its own method; a GET route also handles HEAD. *)
Definition handles_method (route_m req_m : Method) : bool :=
  Method_eqb route_m req_m
  || (Method_eqb req_m HEAD && Method_eqb route_m GET).

Section Router.

(** Whether a route's path pattern matches the path of the request
    (Express's path matching). *)
Variable path_matches : string → string → bool.

(** Whether a middleware passes the request on: it calls [next()], and
    without an error. *)
Variable calls_next : Middleware → bool.

(** The middlewares of a matched route, then its handler. *)
Fixpoint run_route (mws : list Middleware) (h : Handler) : Routed :=
  match mws with
  | [] => Handled h
  | mw :: mws => if calls_next mw then run_route mws h else Stopped mw
  end.

(** The router walks its stack in order. *)
Fixpoint route_request (stack : list Layer) (m : Method) (path : string)
  : Routed :=
  match stack with
  | [] => Unrouted
  | Use mw :: stack =>
      if calls_next mw then route_request stack m path else Stopped mw
  | Route rm pattern mws h :: stack =>
      if handles_method rm m && path_matches pattern path
      then run_route mws h
      else route_request stack m path
  end.

End Router.

(** ** Further notions used in the statements *)

(** No client has two active appointments on one local day. *)
Definition day_exclusive (tz : Z) (t : gmap Z Appointment) : Prop :=
  ∀ i j a b,
    t !! i = Some a → t !! j = Some b →
    active a → active b →
    user_id a = user_id b →
    startOfDay tz (date a) = startOfDay tz (date b) →
    i = j.

(** What a row may become: it keeps its client, provider and date, and once
    canceled it keeps its [canceled_at]. *)
Definition evolves (a a' : Appointment) : Prop :=
  user_id a' = user_id a ∧ provider_id a' = provider_id a
  ∧ date a' = date a
  ∧ ∀ c, canceled_at a = Some c → canceled_at a' = Some c.

(** Every appointment is with a user who is flagged as a provider, and
    starts on a local hour. *)
Definition well_booked (tz : Z) (db : DB) : Prop :=
  ∀ k a, appointments db !! k = Some a →
    is_provider (provider_id a) db
    ∧ startOfHour tz (date a) = date a.

(** The ids [index] lists. *)
Definition listed_ids (l : list Listed) : list Z := listed_id <$> l.

(** The request paths of the sample runs: a pattern matches the path equal
    to it, and the pattern with the id parameter matches one more path. *)
Definition sample_matches (pattern path : string) : bool :=
  String.eqb pattern path
  || (String.eqb pattern "/appointment/:id" && String.eqb path "/appointment/7").

(** ** Lemmas on the library layer *)

Lemma findOne_Some {A} (w : A → bool) (t : gmap Z A) k a :
  findOne w t = Some (k, a) → t !! k = Some a ∧ w a = true.
Proof.
  unfold findOne. intros H. apply find_some in H as [Hin Hw].
  apply list_elem_of_In, elem_of_map_to_list in Hin. auto.
Qed.

Lemma findOne_None {A} (w : A → bool) (t : gmap Z A) :
  findOne w t = None → ∀ k a, t !! k = Some a → w a = false.
Proof.
  unfold findOne. intros H k a Hk.
  apply (find_none _ _ H (k, a)).
  apply list_elem_of_In, elem_of_map_to_list. exact Hk.
Qed.

Lemma findOne_is_null {A} (w : A → bool) (t : gmap Z A) :
  is_null (findOne w t) = false ↔ ∃ k a, t !! k = Some a ∧ w a = true.
Proof.
  split.
  - destruct (findOne w t) as [[k a]|] eqn:E; [|discriminate].
    intros _. exists k, a. by apply findOne_Some.
  - intros (k & a & Hk & Hw).
    destruct (findOne w t) eqn:E; [done|].
    rewrite (findOne_None _ _ E k a Hk) in Hw. discriminate.
Qed.

Lemma where_slot_true pid h a :
  where_slot pid h a = true ↔ provider_id a = pid ∧ active a ∧ date a = h.
Proof.
  unfold where_slot, active, is_null.
  destruct (canceled_at a); rewrite !andb_true_iff, !Z.eqb_eq;
    intuition congruence.
Qed.

Lemma slot_probe_occupied pid h t :
  is_null (findOne (where_slot pid h) t) = false ↔ occupied pid h t.
Proof.
  rewrite findOne_is_null. unfold occupied.
  split; intros (k & a & Hk & Hw); exists k, a; split; auto;
    by apply where_slot_true.
Qed.

(** ** What the two actions compute *)

Lemma store_invalid tz fmt userId body now db :
  schema_isValid body = false →
  store tz fmt userId body now db = (Sent (store_error ValidationError), db).
Proof.
  destruct body as [[pid|] [d|]]; cbn; try discriminate; reflexivity.
Qed.

Lemma store_valid tz fmt userId v t now db :
  store tz fmt userId {| body_provider_id := Some v; body_date := Some t |}
    now db =
  match first_failing (code_checks tz userId v t now db) with
  | Some e => (Sent (store_error e), db)
  | None => accept fmt db userId (column_value v) (startOfHour tz t)
  end.
Proof.
  unfold store, first_failing, code_checks, booking_checks, accept. cbn.
  destruct (strict_equal v userId); cbn; [reflexivity|].
  unfold mbind, action_bind, User_findOne_provider. cbn.
  destruct (users db !! column_value v) as [p|]; cbn; [|reflexivity].
  destruct (provider p); cbn; [|reflexivity].
  unfold isBefore.
  destruct (startOfHour tz t <? now); cbn; [reflexivity|].
  destruct (findOne (where_slot (column_value v) (startOfHour tz t))
              (appointments db));
    cbn; [reflexivity|].
  destruct (findOne (where_user_day tz userId t) (appointments db));
    cbn; [reflexivity|].
  destruct (users db !! userId); reflexivity.
Qed.

(** The guard fires on the requester's id sent as a number, and on nothing
    else. *)
Lemma strict_equal_true v userId :
  strict_equal v userId = true ↔ v = json_number userId.
Proof.
  destruct v as [n|n]; cbn; [|split; discriminate].
  rewrite Z.eqb_eq. split; congruence.
Qed.

Lemma strict_equal_other v userId :
  column_value v ≠ userId → strict_equal v userId = false.
Proof.
  intros Hne. destruct (strict_equal v userId) eqn:E; [|reflexivity].
  apply strict_equal_true in E. subst v. done.
Qed.

(** Where the guard does what the specification asks of check (1), the
    checks of [store] are those of the specification. *)
Lemma code_checks_spec tz userId v t now db :
  (∃ n, v = json_number n) ∨ column_value v ≠ userId →
  code_checks tz userId v t now db
  = booking_checks tz userId (column_value v) t now db.
Proof.
  intros H. unfold code_checks, booking_checks. cbn. f_equal. f_equal. f_equal.
  destruct H as [[n ->]|Hne]; [reflexivity|].
  rewrite strict_equal_other by done. symmetry. by apply Z.eqb_neq.
Qed.

Lemma delete_unfold userId k now1 now2 queue_ok db :
  delete userId k now1 now2 queue_ok db =
  match appointments db !! k with
  | None => (Raised TypeError, db)
  | Some a =>
      if negb (user_id a =? userId) then (Sent (delete_error Forbidden), db)
      else if subHours (date a) 2 <? now1 then
        (Sent (delete_error TooLateToCancel), db)
      else if negb (is_null (canceled_at a)) then
        (Sent (delete_error AlreadyCanceled), db)
      else
        let i := set_canceled_at (loaded db k a) now2 in
        if queue_ok then (Sent (ok i), after_enqueue db i)
        else (Raised QueueError, after_save db i)
  end.
Proof.
  unfold delete, mbind, action_bind, Appointment_findByPk_include. cbn.
  destruct (appointments db !! k) as [a|]; cbn; [|reflexivity].
  destruct (user_id a =? userId); cbn; [|reflexivity].
  unfold isBefore.
  destruct (subHours (date a) 2 <? now1); cbn; [reflexivity|].
  destruct (canceled_at a); cbn; [reflexivity|].
  destruct queue_ok; reflexivity.
Qed.

(** ** Invariants of the appointments table *)

Lemma slot_exclusive_empty : slot_exclusive ∅.
Proof. intros i j a b Hi. rewrite lookup_empty in Hi. discriminate. Qed.

(** Booking a free slot keeps the slots exclusive. *)
Lemma slot_exclusive_book (t : gmap Z Appointment) k userId pid h :
  slot_exclusive t → ¬ occupied pid h t →
  slot_exclusive (<[k := booked userId pid h]> t).
Proof.
  intros Hex Hfree i j a b Hi Hj Ha Hb Hp Hd.
  rewrite lookup_insert in Hi, Hj.
  destruct (decide (k = i)) as [Hki|Hki], (decide (k = j)) as [Hkj|Hkj];
    simplify_eq; cbn in *; auto.
  - exfalso. apply Hfree. exists j, b. auto.
  - exfalso. apply Hfree. exists i, a. auto.
  - eauto.
Qed.

(** Writing a canceled row keeps the slots exclusive. *)
Lemma slot_exclusive_cancel (t : gmap Z Appointment) k a' :
  slot_exclusive t → ¬ active a' → slot_exclusive (<[k := a']> t).
Proof.
  intros Hex Hna i j a b Hi Hj Ha Hb Hp Hd.
  rewrite lookup_insert in Hi, Hj.
  destruct (decide (k = i)), (decide (k = j)); simplify_eq; try done.
  eauto.
Qed.

Lemma first_failing_None tz userId v t now db :
  first_failing (code_checks tz userId v t now db) = None →
  strict_equal v userId = false
  ∧ is_provider (column_value v) db
  ∧ now ≤ startOfHour tz t
  ∧ ¬ occupied (column_value v) (startOfHour tz t) (appointments db)
  ∧ findOne (where_user_day tz userId t) (appointments db) = None.
Proof.
  unfold first_failing, code_checks, booking_checks, is_provider. cbn.
  destruct (strict_equal v userId) eqn:E1; cbn; [discriminate|].
  destruct (users db !! column_value v) as [u|]; cbn; [|discriminate].
  destruct (provider u) eqn:E2; cbn; [|discriminate].
  destruct (startOfHour tz t <? now) eqn:E3; cbn; [discriminate|].
  destruct (is_null (findOne (where_slot _ _) _)) eqn:E4; cbn; [|discriminate].
  destruct (findOne (where_user_day _ _ _) _) eqn:E5; cbn; [discriminate|].
  intros _. repeat split.
  - eauto.
  - apply Z.ltb_ge. exact E3.
  - rewrite <- slot_probe_occupied. congruence.
Qed.

(** [store] either answers with a rejection and writes nothing, or all five
    checks have passed and it goes on to persist. *)
Lemma store_cases tz fmt userId body now db :
  (∃ e, store tz fmt userId body now db = (Sent (store_error e), db))
  ∨ (∃ v t,
       body = {| body_provider_id := Some v; body_date := Some t |}
       ∧ first_failing (code_checks tz userId v t now db) = None
       ∧ store tz fmt userId body now db
         = accept fmt db userId (column_value v) (startOfHour tz t)).
Proof.
  destruct (schema_isValid body) eqn:V.
  - destruct body as [[v|] [t|]]; try discriminate.
    rewrite store_valid.
    destruct (first_failing _) as [e|] eqn:F; [left; eauto|].
    right. exists v, t. auto.
  - left. exists ValidationError. by apply store_invalid.
Qed.

Lemma accept_appointments fmt db userId pid h :
  appointments (accept fmt db userId pid h).2
  = <[appointments_seq db := booked userId pid h]> (appointments db).
Proof. unfold accept. destruct (users db !! userId); reflexivity. Qed.

Lemma accept_seq fmt db userId pid h :
  appointments_seq (accept fmt db userId pid h).2 = appointments_seq db + 1.
Proof. unfold accept. destruct (users db !! userId); reflexivity. Qed.

Lemma store_preserves_slot_exclusive tz fmt userId body now db :
  slot_exclusive (appointments db) →
  slot_exclusive (appointments (store tz fmt userId body now db).2).
Proof.
  intros Hex.
  destruct (store_cases tz fmt userId body now db)
    as [[e ->]|(pid & t & -> & F & ->)]; [exact Hex|].
  rewrite accept_appointments.
  apply slot_exclusive_book; [exact Hex|].
  by apply first_failing_None in F as (_ & _ & _ & ? & _).
Qed.

Lemma delete_preserves_slot_exclusive userId k now1 now2 queue_ok db :
  slot_exclusive (appointments db) →
  slot_exclusive (appointments (delete userId k now1 now2 queue_ok db).2).
Proof.
  intros Hex. rewrite delete_unfold.
  destruct (appointments db !! k) as [a|]; [|exact Hex].
  destruct (negb _); [exact Hex|].
  destruct (_ <? _); [exact Hex|].
  destruct (negb _); [exact Hex|].
  destruct queue_ok; cbn; by apply slot_exclusive_cancel.
Qed.

Lemma dispatch_preserves_slot_exclusive tz fmt c db :
  slot_exclusive (appointments db) →
  slot_exclusive (appointments (dispatch tz fmt c db).2).
Proof.
  destruct c; cbn.
  - apply store_preserves_slot_exclusive.
  - apply delete_preserves_slot_exclusive.
Qed.

Lemma serve_preserves_slot_exclusive tz fmt cs : ∀ db,
  slot_exclusive (appointments db) →
  slot_exclusive (appointments (serve tz fmt cs db)).
Proof.
  induction cs as [|c cs IH]; intros db Hex; cbn; [exact Hex|].
  apply IH. by apply dispatch_preserves_slot_exclusive.
Qed.

(** Keys come from the sequence, so a booking never overwrites a row. *)
Lemma dispatch_preserves_keys_below_seq tz fmt c db :
  keys_below_seq db → keys_below_seq (dispatch tz fmt c db).2.
Proof.
  intros Hk. destruct c as [userId body now|userId k now1 now2 queue_ok]; cbn.
  - destruct (store_cases tz fmt userId body now db)
      as [[e ->]|(pid & t & -> & F & ->)]; [exact Hk|].
    intros j a. rewrite accept_appointments, accept_seq, lookup_insert.
    case_decide; [lia|]. intros Hj. apply Hk in Hj. lia.
  - rewrite delete_unfold.
    destruct (appointments db !! k) as [a|] eqn:E; [|exact Hk].
    destruct (negb _); [exact Hk|].
    destruct (_ <? _); [exact Hk|].
    destruct (negb _); [exact Hk|].
    assert (Hlt : k < appointments_seq db) by (by eapply Hk).
    destruct queue_ok; cbn; intros j b; cbn; rewrite lookup_insert;
      case_decide; subst; auto; apply Hk.
Qed.

Lemma serve_preserves_keys_below_seq tz fmt cs : ∀ db,
  keys_below_seq db → keys_below_seq (serve tz fmt cs db).
Proof.
  induction cs as [|c cs IH]; intros db Hk; cbn; [exact Hk|].
  apply IH. by apply dispatch_preserves_keys_below_seq.
Qed.

Lemma booking_is_fresh tz fmt cs db :
  keys_below_seq db →
  appointments (serve tz fmt cs db) !! appointments_seq (serve tz fmt cs db)
  = None.
Proof.
  intros Hk. apply (serve_preserves_keys_below_seq tz fmt cs) in Hk.
  destruct (appointments _ !! _) eqn:E; [|reflexivity].
  apply Hk in E. lia.
Qed.

(** ** The checks of [store], one by one *)

Lemma where_user_day_true tz userId t a :
  where_user_day tz userId t a = true
  ↔ user_id a = userId ∧ active a ∧ startOfDay tz t ≤ date a ≤ endOfDay tz t.
Proof.
  unfold where_user_day, active, is_null.
  destruct (canceled_at a);
    rewrite !andb_true_iff, Z.eqb_eq, !Z.leb_le; intuition congruence.
Qed.

Lemma day_probe_booked tz userId t tbl :
  is_null (findOne (where_user_day tz userId t) tbl) = false
  ↔ same_day_booked tz userId t tbl.
Proof.
  rewrite findOne_is_null. unfold same_day_booked.
  split; intros (k & a & Hk & Hw); exists k, a; split; auto;
    by apply where_user_day_true.
Qed.

Lemma is_provider_flag pid db :
  match users db !! pid with Some u => provider u | None => false end = true
  ↔ is_provider pid db.
Proof.
  unfold is_provider. split.
  - destruct (users db !! pid) as [u|]; [eauto|discriminate].
  - intros (u & -> & ->). reflexivity.
Qed.

Lemma not_false_true (b : bool) : b ≠ false → b = true.
Proof. by destruct b. Qed.

Lemma not_true_false (b : bool) : b ≠ true → b = false.
Proof. by destruct b. Qed.

(** The booleans the five checks of [store] branch on, from the facts they
    stand for. *)
Ltac decide_checks :=
  repeat match goal with
    | H : strict_equal ?v ?u = false |- context [strict_equal ?v ?u] =>
        rewrite H
    | H : column_value ?v ≠ ?u |- context [strict_equal ?v ?u] =>
        rewrite (strict_equal_other v u H)
    | H : is_provider ?p ?db |- context [users ?db !! ?p] =>
        rewrite (proj2 (is_provider_flag p db) H)
    | H : ¬ is_provider ?p ?db |- context [users ?db !! ?p] =>
        rewrite (not_true_false _ (λ E, H (proj1 (is_provider_flag p db) E)))
    | H : ?h < ?n |- context [?h <? ?n] => rewrite (proj2 (Z.ltb_lt h n) H)
    | H : ?n ≤ ?h |- context [?h <? ?n] => rewrite (proj2 (Z.ltb_ge h n) H)
    | H : occupied ?p ?h ?t |- context [findOne (where_slot ?p ?h) ?t] =>
        rewrite (proj2 (slot_probe_occupied p h t) H)
    | H : ¬ occupied ?p ?h ?t |- context [findOne (where_slot ?p ?h) ?t] =>
        rewrite (not_false_true _
                   (λ E, H (proj1 (slot_probe_occupied p h t) E)))
    | H : same_day_booked ?z ?u ?d ?t
      |- context [findOne (where_user_day ?z ?u ?d) ?t] =>
        rewrite (proj2 (day_probe_booked z u d t) H)
    | H : ¬ same_day_booked ?z ?u ?d ?t
      |- context [findOne (where_user_day ?z ?u ?d) ?t] =>
        rewrite (not_false_true _
                   (λ E, H (proj1 (day_probe_booked z u d t) E)))
    end.

Ltac run_checks :=
  rewrite store_valid; unfold first_failing, code_checks, booking_checks; cbn;
  decide_checks; cbn; decide_checks; cbn.

Lemma store_self tz fmt userId t now db :
  store tz fmt userId
    {| body_provider_id := Some (json_number userId); body_date := Some t |}
    now db = (Sent (store_error SelfBooking), db).
Proof.
  rewrite store_valid. unfold first_failing, code_checks. cbn.
  by rewrite Z.eqb_refl.
Qed.

Lemma store_not_provider tz fmt userId v t now db :
  strict_equal v userId = false → ¬ is_provider (column_value v) db →
  store tz fmt userId {| body_provider_id := Some v; body_date := Some t |}
    now db = (Sent (store_error NotAProvider), db).
Proof. intros. by run_checks. Qed.

Lemma store_past tz fmt userId v t now db :
  strict_equal v userId = false → is_provider (column_value v) db →
  startOfHour tz t < now →
  store tz fmt userId {| body_provider_id := Some v; body_date := Some t |}
    now db = (Sent (store_error PastDate), db).
Proof. intros. by run_checks. Qed.

Lemma store_taken tz fmt userId v t now db :
  strict_equal v userId = false → is_provider (column_value v) db →
  now ≤ startOfHour tz t →
  occupied (column_value v) (startOfHour tz t) (appointments db) →
  store tz fmt userId {| body_provider_id := Some v; body_date := Some t |}
    now db = (Sent (store_error SlotTaken), db).
Proof. intros. by run_checks. Qed.

Lemma store_same_day tz fmt userId v t now db :
  strict_equal v userId = false → is_provider (column_value v) db →
  now ≤ startOfHour tz t →
  ¬ occupied (column_value v) (startOfHour tz t) (appointments db) →
  same_day_booked tz userId t (appointments db) →
  store tz fmt userId {| body_provider_id := Some v; body_date := Some t |}
    now db = (Sent (store_error DuplicateSameDayBooking), db).
Proof. intros. by run_checks. Qed.

Lemma store_accept tz fmt userId v t now db :
  strict_equal v userId = false → is_provider (column_value v) db →
  now ≤ startOfHour tz t →
  ¬ occupied (column_value v) (startOfHour tz t) (appointments db) →
  ¬ same_day_booked tz userId t (appointments db) →
  store tz fmt userId {| body_provider_id := Some v; body_date := Some t |}
    now db = accept fmt db userId (column_value v) (startOfHour tz t).
Proof. intros. by run_checks. Qed.

(** ** The booking scenario of the specification, run on the model *)

(** Ana books Bia at 14:00; Caio's request for the same hour is answered
    SlotTaken; Ana's request for 09:00 of the same day is answered
    DuplicateSameDayBooking. *)
Example scenario_booking :
  let now := jan10_14h - DAY in
  let first := store 0 fmt0 1 (valid_body 2 (jan10_14h + 1234)) now db_empty in
  first.1 = Sent (ok (created db_empty 1 2 jan10_14h))
  ∧ appointments first.2 = appointments db_booked
  ∧ (store 0 fmt0 3 (valid_body 2 jan10_14h) now first.2).1
    = Sent (store_error SlotTaken)
  ∧ (store 0 fmt0 1 (valid_body 2 (jan10_14h - 5 * HOUR)) now first.2).1
    = Sent (store_error DuplicateSameDayBooking).
Proof. cbn zeta. repeat split; by vm_compute. Qed.

(** ** Slot exclusivity *)

(** C1. After any sequence of requests served from a table whose active
    appointments have pairwise different (provider, hour) slots, the active
    appointments still have pairwise different slots.  [store] keeps it so:
    when an active appointment occupies the provider's hour-truncated slot the
    request is rejected and nothing is written, with SlotTaken as soon as the
    three earlier checks pass; and whatever [store] writes is one new active
    row at the hour-truncated date in a slot that was free, which it does
    write when the slot is free and the other checks pass. *)
Theorem slot_exclusivity tz fmt (db : DB) (calls : list Call) :
  slot_exclusive (appointments db) →
  let db' := serve tz fmt calls db in
  slot_exclusive (appointments db')
  ∧ ∀ userId (v : JsonId) t now,
      let pid := column_value v in
      let hourStart := startOfHour tz t in
      let out := store tz fmt userId (request_body v t) now db' in
      (occupied pid hourStart (appointments db') →
         out.2 = db'
         ∧ (∃ e, out.1 = Sent (store_error e))
         ∧ (pid ≠ userId → is_provider pid db' → now ≤ hourStart →
            out.1 = Sent (store_error SlotTaken)))
      ∧ (appointments out.2 = appointments db'
         ∨ ¬ occupied pid hourStart (appointments db')
           ∧ appointments out.2
             = <[appointments_seq db' := booked userId pid hourStart]>
                 (appointments db'))
      ∧ (¬ occupied pid hourStart (appointments db') →
         pid ≠ userId → is_provider pid db' → now ≤ hourStart →
         ¬ same_day_booked tz userId t (appointments db') →
         appointments out.2
         = <[appointments_seq db' := booked userId pid hourStart]>
             (appointments db')).
Proof.
  intros Hex db'. split; [by apply serve_preserves_slot_exclusive|].
  intros userId v t now pid hourStart out. subst out hourStart pid.
  destruct (store_cases tz fmt userId (request_body v t) now db')
    as [[e He]|(v' & t' & Hb & F & Hs)].
  - rewrite He. cbn. split; [|split].
    + intros Hocc. split; [reflexivity|]. split; [by exists e|].
      intros Hne Hp Hnow. unfold request_body in He.
      apply strict_equal_other in Hne.
      rewrite (store_taken tz fmt userId v t now db') in He by done.
      congruence.
    + by left.
    + intros Hfree Hne Hp Hnow Hday. exfalso.
      apply strict_equal_other in Hne.
      unfold request_body in He. rewrite store_accept in He by done.
      unfold accept in He. destruct (users db' !! userId); discriminate.
  - injection Hb as <- <-. rewrite Hs, accept_appointments.
    apply first_failing_None in F as (Hne & Hp & Hnow & Hfree & _).
    split; [|split].
    + intros Hocc. by destruct Hfree.
    + by right.
    + reflexivity.
Qed.

Lemma slot_exclusive_db_booked : slot_exclusive (appointments db_booked).
Proof.
  apply slot_exclusive_book; [apply slot_exclusive_empty|].
  intros (k & a & Hk & _). rewrite lookup_empty in Hk. discriminate.
Qed.

Lemma occupied_db_booked : occupied 2 jan10_14h (appointments db_booked).
Proof. exists 1, (booked 1 2 jan10_14h). by vm_compute. Qed.

Lemma slot_exclusivity_witness :
  slot_exclusive (appointments db_empty)
  ∧ slot_exclusive
      (appointments
         (serve 0 fmt0
            [POST_appointment 1 (valid_body 2 (jan10_14h + 1234))
               (jan10_14h - DAY);
             POST_appointment 3 (valid_body 2 jan10_14h) (jan10_14h - DAY);
             DELETE_appointment 1 1 (jan10_14h - DAY) (jan10_14h - DAY) true;
             POST_appointment 3 (valid_body 2 jan10_14h) (jan10_14h - DAY)]
            db_empty))
  ∧ (store 0 fmt0 3 (valid_body 2 (jan10_14h + 1234)) (jan10_14h - DAY)
       db_booked).1
    = Sent (store_error SlotTaken).
Proof.
  split; [apply slot_exclusive_empty|]. split.
  - apply (slot_exclusivity 0 fmt0 db_empty). apply slot_exclusive_empty.
  - destruct (slot_exclusivity 0 fmt0 db_booked [] slot_exclusive_db_booked)
      as [_ Hstore].
    destruct (Hstore 3 (json_number 2) (jan10_14h + 1234) (jan10_14h - DAY))
      as [Htaken _].
    apply Htaken.
    + apply occupied_db_booked.
    + discriminate.
    + exists bia. by vm_compute.
    + by vm_compute.
Defined.

(** ** The grace window of cancellation *)

(** C2, the claim as stated fails: a cancellation requested at exactly
    [scheduledAt - 2h] is not rejected, it succeeds. *)
Lemma grace_window_boundary_not_rejected :
  let now := jan10_14h - 2 * HOUR in
  let out := delete 1 1 now now true db_booked in
  cancelable_by 1 1 (booked 1 2 jan10_14h) db_booked
  ∧ ¬ now < jan10_14h - 2 * HOUR
  ∧ cancel_succeeds out
  ∧ out.1 ≠ Sent (delete_error TooLateToCancel).
Proof.
  cbn zeta. split; [by vm_compute|]. split; [by vm_compute|]. split.
  - eexists. vm_compute. reflexivity.
  - vm_compute. discriminate.
Qed.

(** C2, amended.  For an appointment owned by the requester and not yet
    canceled, the cancellation is committed ([canceled_at] is set) if and
    only if [now] is not later than [scheduledAt - 2h], whether or not the
    enqueue of the mail job succeeds, and it is answered with success if and
    only if, moreover, the enqueue succeeds; later than [scheduledAt - 2h]
    it is rejected with TooLateToCancel and nothing is written.  With the
    enqueue succeeding it succeeds at exactly [scheduledAt - 2h] and at
    [scheduledAt - 2h - 1s]; one millisecond after [scheduledAt - 2h] it is
    rejected. *)
Theorem cancel_grace_window userId k a now1 now2 db :
  cancelable_by userId k a db →
  (cancel_succeeds (delete userId k now1 now2 true db)
   ↔ now1 ≤ date a - 2 * HOUR)
  ∧ (∀ queue_ok,
       cancel_succeeds (delete userId k now1 now2 queue_ok db)
       ↔ queue_ok = true ∧ now1 ≤ date a - 2 * HOUR)
  ∧ (∀ queue_ok,
       canceled_at
         <$> appointments (delete userId k now1 now2 queue_ok db).2 !! k
       = Some (Some now2)
       ↔ now1 ≤ date a - 2 * HOUR)
  ∧ (∀ queue_ok, date a - 2 * HOUR < now1 →
       delete userId k now1 now2 queue_ok db
       = (Sent (delete_error TooLateToCancel), db))
  ∧ cancel_succeeds (delete userId k (date a - 2 * HOUR) now2 true db)
  ∧ cancel_succeeds (delete userId k (date a - 2 * HOUR - 1000) now2 true db)
  ∧ ¬ cancel_succeeds (delete userId k (date a - 2 * HOUR + 1) now2 true db).
Proof.
  intros (Hk & Hu & Hc).
  assert (Hrun : ∀ n q, delete userId k n now2 q db =
            if date a - 2 * HOUR <? n
            then (Sent (delete_error TooLateToCancel), db)
            else let i := set_canceled_at (loaded db k a) now2 in
                 if q then (Sent (ok i), after_enqueue db i)
                 else (Raised QueueError, after_save db i)).
  { intros n q. rewrite delete_unfold, Hk, Hc, Hu, Z.eqb_refl. cbn.
    unfold subHours. reflexivity. }
  assert (Hqiff : ∀ n q, cancel_succeeds (delete userId k n now2 q db)
                         ↔ q = true ∧ n ≤ date a - 2 * HOUR).
  { intros n q. rewrite Hrun. unfold cancel_succeeds.
    destruct (Z.ltb_spec (date a - 2 * HOUR) n); cbn.
    - split; [intros [i Hi]; discriminate|lia].
    - destruct q; cbn.
      + split; [by split|eauto].
      + split; [intros [i Hi]; discriminate|intros [? _]; discriminate]. }
  assert (Hiff : ∀ n, cancel_succeeds (delete userId k n now2 true db)
                      ↔ n ≤ date a - 2 * HOUR).
  { intros n. rewrite Hqiff. intuition. }
  split; [apply Hiff|]. split; [intros q; apply Hqiff|]. split; [|split].
  - intros q. rewrite Hrun.
    destruct (Z.ltb_spec (date a - 2 * HOUR) now1); cbn.
    + rewrite Hk. cbn. rewrite Hc. split; [discriminate|lia].
    + destruct q; cbn; rewrite lookup_insert_eq; cbn; by split.
  - intros q Hlate. rewrite Hrun.
    destruct (Z.ltb_spec (date a - 2 * HOUR) now1); [reflexivity|lia].
  - rewrite !Hiff. lia.
Qed.

Lemma cancel_grace_window_witness :
  cancelable_by 1 1 (booked 1 2 jan10_14h) db_booked
  ∧ cancel_succeeds
      (delete 1 1 (jan10_14h - 2 * HOUR - 1000) (jan10_14h - 2 * HOUR - 1000)
         true db_booked).
Proof.
  assert (H : cancelable_by 1 1 (booked 1 2 jan10_14h) db_booked)
    by (by vm_compute).
  split; [exact H|].
  apply (cancel_grace_window 1 1 (booked 1 2 jan10_14h)
           (jan10_14h - 2 * HOUR - 1000) (jan10_14h - 2 * HOUR - 1000)
           db_booked H).
Defined.

(** ** Booking only in the future *)

(** C3, the claim as stated fails: a booking whose hour-truncated time equals
    [now] is not rejected with PastDate, it is accepted. *)
Lemma future_only_boundary_accepted :
  let out := store 0 fmt0 1 (valid_body 2 jan10_14h) jan10_14h db_empty in
  startOfHour 0 jan10_14h ≤ jan10_14h
  ∧ out.1 = Sent (ok (created db_empty 1 2 jan10_14h))
  ∧ appointments out.2 !! 1 = Some (booked 1 2 jan10_14h)
  ∧ out.1 ≠ Sent (store_error PastDate).
Proof.
  cbn zeta. split; [by vm_compute|]. split; [by vm_compute|].
  split; [by vm_compute|]. vm_compute. discriminate.
Qed.

(** C3, amended.  For a booking request that passes the two earlier checks
    (not a self-booking, the provider exists and is flagged): if the
    hour-truncated requested time is strictly before [now], [store] rejects
    with PastDate and writes nothing; if it is [now] or later and the two
    later checks pass, [store] accepts the booking: it persists the
    appointment at the hour-truncated time and, the client being a stored
    user, answers with it. *)
Theorem future_only tz fmt userId (v : JsonId) t now db :
  column_value v ≠ userId → is_provider (column_value v) db →
  let pid := column_value v in
  let hourStart := startOfHour tz t in
  let out := store tz fmt userId (request_body v t) now db in
  (hourStart < now → out = (Sent (store_error PastDate), db))
  ∧ (now ≤ hourStart →
     ¬ occupied pid hourStart (appointments db) →
     ¬ same_day_booked tz userId t (appointments db) →
     appointments out.2
     = <[appointments_seq db := booked userId pid hourStart]> (appointments db)
     ∧ (is_Some (users db !! userId) →
        out.1 = Sent (ok (created db userId pid hourStart)))).
Proof.
  intros Hne Hp pid hourStart out. subst pid hourStart out.
  apply strict_equal_other in Hne. unfold request_body. split.
  - intros Hpast. by apply store_past.
  - intros Hnow Hfree Hday. rewrite store_accept by done.
    rewrite accept_appointments. split; [reflexivity|].
    intros [u Hu]. unfold accept. by rewrite Hu.
Qed.

Lemma future_only_witness :
  2 ≠ 1 ∧ is_provider 2 db_empty
  ∧ store 0 fmt0 1 (valid_body 2 jan10_14h) (jan10_14h + 1) db_empty
    = (Sent (store_error PastDate), db_empty).
Proof.
  assert (Hp : is_provider 2 db_empty) by (exists bia; by vm_compute).
  assert (Hne : 2 ≠ 1) by lia.
  split; [exact Hne|]. split; [exact Hp|].
  apply (future_only 0 fmt0 1 (json_number 2) jan10_14h (jan10_14h + 1)
           db_empty Hne Hp).
  by vm_compute.
Defined.

(** ** Cancelling twice *)

(** C4, the claim as stated fails: cancelling an already canceled appointment
    after the grace window has closed is rejected with TooLateToCancel, not
    with AlreadyCanceled. *)
Lemma cancel_twice_too_late :
  let out := delete 1 1 jan10_14h jan10_14h true db_canceled in
  (∃ a c, appointments db_canceled !! 1 = Some a ∧ user_id a = 1
          ∧ canceled_at a = Some c)
  ∧ out = (Sent (delete_error TooLateToCancel), db_canceled)
  ∧ out.1 ≠ Sent (delete_error AlreadyCanceled).
Proof.
  cbn zeta. split; [eexists _, _; by vm_compute|].
  split; [by vm_compute|]. vm_compute. discriminate.
Qed.

(** C4, amended.  Cancelling, as its owner, an appointment that is already
    canceled is always rejected: with TooLateToCancel when
    [scheduledAt - 2h] is before [now], with AlreadyCanceled otherwise.
    Either way the database is left as it was: [canceled_at] keeps its value
    and no cancellation-mail job is enqueued. *)
Theorem cancel_idempotence userId k a c now1 now2 queue_ok db :
  appointments db !! k = Some a → user_id a = userId →
  canceled_at a = Some c →
  let out := delete userId k now1 now2 queue_ok db in
  out = (Sent (delete_error
                 (if isBefore (subHours (date a) 2) now1
                  then TooLateToCancel else AlreadyCanceled)), db)
  ∧ appointments out.2 !! k = Some a
  ∧ queue out.2 = queue db.
Proof.
  intros Hk Hu Hc out. subst out.
  rewrite delete_unfold, Hk, Hu, Hc, Z.eqb_refl. unfold isBefore. cbn.
  destruct (subHours (date a) 2 <? now1); cbn; auto.
Qed.

Lemma cancel_idempotence_witness :
  appointments db_canceled !! 1
  = Some {| user_id := 1; provider_id := 2; date := jan10_14h;
            canceled_at := Some (jan10_14h - DAY) |}
  ∧ delete 1 1 (jan10_14h - 3 * HOUR) (jan10_14h - 3 * HOUR) true db_canceled
    = (Sent (delete_error AlreadyCanceled), db_canceled).
Proof.
  assert (Hk : appointments db_canceled !! 1
               = Some {| user_id := 1; provider_id := 2; date := jan10_14h;
                         canceled_at := Some (jan10_14h - DAY) |})
    by (by vm_compute).
  split; [exact Hk|].
  apply (cancel_idempotence 1 1 _ (jan10_14h - DAY) (jan10_14h - 3 * HOUR)
           (jan10_14h - 3 * HOUR) true db_canceled Hk eq_refl eq_refl).
Defined.

(** ** Cancelling an appointment that does not exist *)

(** C5.  For an id under which no appointment is stored, [delete] sends no
    response at all: reading [user_id] of the null result raises a TypeError.
    Nothing is written and nothing is enqueued. *)
Theorem cancel_unknown_id userId k now1 now2 queue_ok db :
  appointments db !! k = None →
  delete userId k now1 now2 queue_ok db = (Raised TypeError, db).
Proof. intros Hk. by rewrite delete_unfold, Hk. Qed.

Lemma cancel_unknown_id_witness :
  appointments db_booked !! 999 = None
  ∧ delete 1 999 jan10_14h jan10_14h true db_booked
    = (Raised TypeError, db_booked).
Proof.
  assert (Hk : appointments db_booked !! 999 = None) by (by vm_compute).
  split; [exact Hk|].
  apply (cancel_unknown_id 1 999 jan10_14h jan10_14h true db_booked Hk).
Defined.

(** ** The order of the booking checks *)

(** [store] answers with the self-booking error only to the requester's own
    id sent as a number. *)
Lemma store_self_booking_inv tz fmt userId v t now db :
  (store tz fmt userId (request_body v t) now db).1
  = Sent (store_error SelfBooking) →
  v = json_number userId.
Proof.
  unfold request_body. rewrite store_valid.
  unfold first_failing, code_checks, booking_checks, accept. cbn.
  destruct (strict_equal v userId) eqn:E; cbn;
    [intros _; by apply strict_equal_true|].
  destruct (users db !! column_value v) as [u|]; cbn; [|discriminate].
  destruct (provider u); cbn; [|discriminate].
  destruct (_ <? _); cbn; [discriminate|].
  destruct (is_null (findOne (where_slot _ _) _)); cbn; [|discriminate].
  destruct (is_null (findOne (where_user_day _ _ _) _)); cbn;
    [|discriminate].
  destruct (users db !! userId); discriminate.
Qed.

(** C6.  The order of the checks as [store] evaluates them.  When the
    [provider_id] is sent as a number, or denotes another user, [store]
    answers with the rejection of the first check, in the order of the
    specification, that fails, and writes nothing; when none fails it accepts
    the booking.  When the requester sends their own id as a string, check
    (1) does not fire: the answer is that of the first failing check among
    (2) to (5), never the self-booking error.  In both cases each check of
    the code decides alone once the earlier ones have passed. *)
Theorem booking_validation_order tz fmt userId (v : JsonId) t now db :
  let pid := column_value v in
  let hourStart := startOfHour tz t in
  let out := store tz fmt userId (request_body v t) now db in
  ((∃ n, v = json_number n) ∨ pid ≠ userId →
   out = match first_failing (booking_checks tz userId pid t now db) with
         | Some e => (Sent (store_error e), db)
         | None => accept fmt db userId pid hourStart
         end)
  ∧ (v = json_number userId → out = (Sent (store_error SelfBooking), db))
  ∧ (v = json_string userId →
     out = match first_failing
                   (tail (booking_checks tz userId pid t now db)) with
           | Some e => (Sent (store_error e), db)
           | None => accept fmt db userId pid hourStart
           end
     ∧ out.1 ≠ Sent (store_error SelfBooking))
  ∧ (strict_equal v userId = false → ¬ is_provider pid db →
     out = (Sent (store_error NotAProvider), db))
  ∧ (strict_equal v userId = false → is_provider pid db → hourStart < now →
     out = (Sent (store_error PastDate), db))
  ∧ (strict_equal v userId = false → is_provider pid db → now ≤ hourStart →
     occupied pid hourStart (appointments db) →
     out = (Sent (store_error SlotTaken), db))
  ∧ (strict_equal v userId = false → is_provider pid db → now ≤ hourStart →
     ¬ occupied pid hourStart (appointments db) →
     same_day_booked tz userId t (appointments db) →
     out = (Sent (store_error DuplicateSameDayBooking), db))
  ∧ (strict_equal v userId = false → is_provider pid db → now ≤ hourStart →
     ¬ occupied pid hourStart (appointments db) →
     ¬ same_day_booked tz userId t (appointments db) →
     out = accept fmt db userId pid hourStart
     ∧ appointments out.2
       = <[appointments_seq db := booked userId pid hourStart]>
           (appointments db)).
Proof.
  intros pid hourStart out. subst pid hourStart out. unfold request_body.
  split.
  { intros Hv. rewrite store_valid. by rewrite code_checks_spec. }
  split; [intros ->; apply store_self|].
  split.
  { intros ->. split.
    - rewrite store_valid. reflexivity.
    - intros E. by apply store_self_booking_inv in E. }
  split; [apply store_not_provider|].
  split; [apply store_past|].
  split; [apply store_taken|].
  split; [apply store_same_day|].
  intros. rewrite store_accept by done. by rewrite accept_appointments.
Qed.

(** Ana, who is no provider, asks for an appointment with herself and sends
    her id as a string: check (1) of the specification fails, the answer is
    that of check (2). *)
Lemma booking_validation_order_witness :
  json_string 1 = json_string 1
  ∧ first_failing (booking_checks 0 1 1 jan10_14h (jan10_14h - DAY) db_empty)
    = Some SelfBooking
  ∧ store 0 fmt0 1 (request_body (json_string 1) jan10_14h) (jan10_14h - DAY)
      db_empty
    = (Sent (store_error NotAProvider), db_empty).
Proof.
  split; [reflexivity|]. split; [by vm_compute|].
  destruct (booking_validation_order 0 fmt0 1 (json_string 1) jan10_14h
              (jan10_14h - DAY) db_empty)
    as (_ & _ & Hstring & _).
  destruct (Hstring eq_refl) as [Hout _].
  rewrite Hout. by vm_compute.
Defined.

(** ** The self-booking guard *)

(** C7.  A booking of a user with themselves is rejected with SelfBooking,
    whatever the date, the clock and the database, when the [provider_id] is
    sent as a number.  Sent as a string it is never rejected with
    SelfBooking: the later checks answer, and when they pass (the user is
    flagged as a provider, the hour has not begun, the slot is free and the
    user has no other appointment that day) the appointment of the user with
    themselves is persisted. *)
Theorem self_booking_guard tz fmt (u t now : Z) (db : DB) :
  let sent_as_number :=
    store tz fmt u (request_body (json_number u) t) now db in
  let sent_as_string :=
    store tz fmt u (request_body (json_string u) t) now db in
  let hourStart := startOfHour tz t in
  sent_as_number = (Sent (store_error SelfBooking), db)
  ∧ sent_as_string.1 ≠ Sent (store_error SelfBooking)
  ∧ (is_provider u db → now ≤ hourStart →
     ¬ occupied u hourStart (appointments db) →
     ¬ same_day_booked tz u t (appointments db) →
     appointments sent_as_string.2
     = <[appointments_seq db := booked u u hourStart]> (appointments db)
     ∧ (is_Some (users db !! u) →
        sent_as_string.1 = Sent (ok (created db u u hourStart)))).
Proof.
  cbn zeta. split; [apply store_self|]. split.
  - intros E. by apply store_self_booking_inv in E.
  - intros Hp Hnow Hfree Hday. unfold request_body.
    rewrite (store_accept tz fmt u (json_string u) t now db) by done.
    rewrite accept_appointments. split; [reflexivity|].
    intros [usr Hu]. unfold accept. cbn. by rewrite Hu.
Qed.

(** Bia, a provider, books herself. *)
Lemma self_booking_guard_witness :
  is_provider 2 db_empty
  ∧ (store 0 fmt0 2 (request_body (json_string 2) jan10_14h)
       (jan10_14h - DAY) db_empty).1
    = Sent (ok (created db_empty 2 2 jan10_14h))
  ∧ appointments
      (store 0 fmt0 2 (request_body (json_string 2) jan10_14h)
         (jan10_14h - DAY) db_empty).2 !! 1
    = Some (booked 2 2 jan10_14h).
Proof.
  assert (Hp : is_provider 2 db_empty) by (exists bia; by vm_compute).
  assert (Hnow : jan10_14h - DAY ≤ startOfHour 0 jan10_14h)
    by (by vm_compute).
  assert (Hfree : ¬ occupied 2 (startOfHour 0 jan10_14h)
                      (appointments db_empty)).
  { intros (k & a & Hk & _). cbn in Hk. by rewrite lookup_empty in Hk. }
  assert (Hday : ¬ same_day_booked 0 2 jan10_14h (appointments db_empty)).
  { intros (k & a & Hk & _). cbn in Hk. by rewrite lookup_empty in Hk. }
  split; [exact Hp|].
  destruct (self_booking_guard 0 fmt0 2 jan10_14h (jan10_14h - DAY) db_empty)
    as (_ & _ & Hbook).
  destruct (Hbook Hp Hnow Hfree Hday) as [Happ Hok]. split.
  - apply Hok. eexists. by vm_compute.
  - rewrite Happ. by vm_compute.
Defined.

(** ** Rejections write nothing *)

(** C8.  Whenever [store] answers with one of its six rejections
    (ValidationError, SelfBooking, NotAProvider, PastDate, SlotTaken,
    DuplicateSameDayBooking), the database is the one it started from: no
    appointment is persisted, no notification is appended. *)
Theorem store_rejection_atomic tz fmt userId (b : StoreBody) now db e :
  (store tz fmt userId b now db).1 = Sent (store_error e) →
  (store tz fmt userId b now db).2 = db
  ∧ appointments (store tz fmt userId b now db).2 = appointments db
  ∧ notifications (store tz fmt userId b now db).2 = notifications db.
Proof.
  intros Hrej.
  destruct (store_cases tz fmt userId b now db)
    as [[e' He]|(pid & t & _ & _ & Hs)].
  - by rewrite He.
  - exfalso. rewrite Hs in Hrej. unfold accept in Hrej.
    destruct (users db !! userId); discriminate.
Qed.

Lemma store_rejection_atomic_witness :
  (store 0 fmt0 1 (valid_body 2 (jan10_14h + 5 * HOUR)) (jan10_14h - 2 * DAY)
     db_booked).1
  = Sent (store_error DuplicateSameDayBooking)
  ∧ (store 0 fmt0 1 (valid_body 2 (jan10_14h + 5 * HOUR)) (jan10_14h - 2 * DAY)
       db_booked).2
    = db_booked.
Proof.
  assert (Hrej : (store 0 fmt0 1 (valid_body 2 (jan10_14h + 5 * HOUR))
                    (jan10_14h - 2 * DAY) db_booked).1
                 = Sent (store_error DuplicateSameDayBooking))
    by (by vm_compute).
  split; [exact Hrej|].
  apply (store_rejection_atomic 0 fmt0 1 (valid_body 2 (jan10_14h + 5 * HOUR))
           (jan10_14h - 2 * DAY) db_booked DuplicateSameDayBooking Hrej).
Defined.

(** ** When the enqueue fails *)

(** C9, the claim as stated fails: when the enqueue fails after the
    cancellation has been saved, the appointment stays canceled but the
    requester gets no success response, the action ends in the exception of
    the queue. *)
Lemma queue_failure_is_not_success :
  let now := jan10_14h - DAY in
  let out := delete 1 1 now now false db_booked in
  cancelable_by 1 1 (booked 1 2 jan10_14h) db_booked
  ∧ canceled_at <$> appointments out.2 !! 1 = Some (Some now)
  ∧ out.1 = Raised QueueError
  ∧ ¬ cancel_succeeds out.
Proof.
  cbn zeta. split; [by vm_compute|]. split; [by vm_compute|].
  split; [by vm_compute|]. intros [i Hi]. vm_compute in Hi. discriminate.
Qed.

(** C9, amended.  If the enqueue of the cancellation mail fails after the
    cancellation has been saved, the appointment remains canceled
    ([canceled_at] stays set, nothing is rolled back) and no job is queued;
    the failure is raised to the caller of the action, which sends no
    response. *)
Theorem cancel_queue_failure userId k a now1 now2 db :
  cancelable_by userId k a db → now1 ≤ date a - 2 * HOUR →
  let out := delete userId k now1 now2 false db in
  out.1 = Raised QueueError
  ∧ (∀ r, out.1 ≠ Sent r)
  ∧ appointments out.2 !! k
    = Some {| user_id := user_id a; provider_id := provider_id a;
              date := date a; canceled_at := Some now2 |}
  ∧ (∀ j, j ≠ k → appointments out.2 !! j = appointments db !! j)
  ∧ queue out.2 = queue db.
Proof.
  intros (Hk & <- & Hc) Hnow out. subst out.
  rewrite delete_unfold, Hk, Hc, Z.eqb_refl. unfold subHours. cbn.
  destruct (Z.ltb_spec (date a - 2 * HOUR) now1); [lia|]. cbn.
  split; [reflexivity|]. split; [discriminate|].
  split; [apply lookup_insert_eq|]. split; [|reflexivity].
  intros j Hj. by apply lookup_insert_ne.
Qed.

Lemma cancel_queue_failure_witness :
  cancelable_by 1 1 (booked 1 2 jan10_14h) db_booked
  ∧ jan10_14h - DAY ≤ date (booked 1 2 jan10_14h) - 2 * HOUR
  ∧ (delete 1 1 (jan10_14h - DAY) (jan10_14h - DAY) false db_booked).1
    = Raised QueueError.
Proof.
  assert (H : cancelable_by 1 1 (booked 1 2 jan10_14h) db_booked)
    by (by vm_compute).
  assert (Hnow : jan10_14h - DAY ≤ date (booked 1 2 jan10_14h) - 2 * HOUR)
    by (by vm_compute).
  split; [exact H|]. split; [exact Hnow|].
  apply (cancel_queue_failure 1 1 (booked 1 2 jan10_14h) (jan10_14h - DAY)
           (jan10_14h - DAY) db_booked H Hnow).
Defined.

(** ** The frame of a cancellation *)

(** C10.  A cancellation that succeeds writes the [canceled_at] of the target
    row and nothing else of the table: the row stays under its id with its
    client, provider and date; every other id maps to what it mapped to; the
    key sequence, the users and the notifications are untouched.  The response
    is exactly the updated row, under its id, as it is now stored. *)
Theorem cancel_frame userId k now1 now2 queue_ok db i :
  (delete userId k now1 now2 queue_ok db).1 = Sent (ok i) →
  let db' := (delete userId k now1 now2 queue_ok db).2 in
  ∃ a,
    appointments db !! k = Some a
    ∧ canceled_at a = None
    ∧ id i = k
    ∧ row i = {| user_id := user_id a; provider_id := provider_id a;
                 date := date a; canceled_at := Some now2 |}
    ∧ appointments db' !! k = Some (row i)
    ∧ (∀ j, j ≠ k → appointments db' !! j = appointments db !! j)
    ∧ appointments_seq db' = appointments_seq db
    ∧ users db' = users db
    ∧ notifications db' = notifications db.
Proof.
  rewrite delete_unfold.
  destruct (appointments db !! k) as [a|] eqn:Hk; [|discriminate].
  destruct (negb (user_id a =? userId)); [discriminate|].
  destruct (subHours (date a) 2 <? now1); [discriminate|].
  destruct (canceled_at a) eqn:Hc; cbn; [discriminate|].
  destruct queue_ok; cbn; [|discriminate].
  intros [= <-]. exists a. cbn.
  split; [reflexivity|]. split; [exact Hc|]. split; [reflexivity|].
  split; [reflexivity|]. split; [apply lookup_insert_eq|].
  split; [|done]. intros j Hj. by apply lookup_insert_ne.
Qed.

Lemma cancel_frame_witness :
  let i := set_canceled_at (loaded db_booked 1 (booked 1 2 jan10_14h))
             (jan10_14h - DAY + 7) in
  let out := delete 1 1 (jan10_14h - DAY) (jan10_14h - DAY + 7) true
               db_booked in
  out.1 = Sent (ok i)
  ∧ appointments out.2 !! 1 = Some (row i).
Proof.
  cbn zeta.
  assert (H : (delete 1 1 (jan10_14h - DAY) (jan10_14h - DAY + 7) true
                 db_booked).1
              = Sent (ok (set_canceled_at
                            (loaded db_booked 1 (booked 1 2 jan10_14h))
                            (jan10_14h - DAY + 7))))
    by (by vm_compute).
  split; [exact H|].
  destruct (cancel_frame 1 1 (jan10_14h - DAY) (jan10_14h - DAY + 7) true
              db_booked _ H) as (a & _ & _ & _ & _ & Hrow & _).
  exact Hrow.
Defined.

(** ** Local hours and days *)

Lemma startOfHour_bounds tz t :
  startOfHour tz t ≤ t < startOfHour tz t + HOUR.
Proof.
  unfold startOfHour, HOUR.
  pose proof (Z.mod_pos_bound (t + tz) 3600000). lia.
Qed.

Lemma startOfHour_on_the_hour tz t : (startOfHour tz t + tz) `mod` HOUR = 0.
Proof.
  unfold startOfHour, HOUR.
  replace (t - (t + tz) `mod` 3600000 + tz)
    with (3600000 * ((t + tz) `div` 3600000))
    by (pose proof (Z.div_mod (t + tz) 3600000); lia).
  rewrite Z.mul_comm. by apply Z.mod_mul.
Qed.

Lemma startOfHour_fixpoint tz d :
  (d + tz) `mod` HOUR = 0 ↔ startOfHour tz d = d.
Proof. unfold startOfHour. lia. Qed.

(** The instants between the start and the end of the day of [t] are those
    of the same local day. *)
Lemma startOfDay_same_day tz t d :
  startOfDay tz t ≤ d ≤ endOfDay tz t ↔ startOfDay tz d = startOfDay tz t.
Proof.
  unfold endOfDay, startOfDay, DAY.
  pose proof (Z.mod_pos_bound (t + tz) 86400000).
  pose proof (Z.mod_pos_bound (d + tz) 86400000).
  pose proof (Z.div_mod (t + tz) 86400000).
  split.
  - intros Hd.
    assert (E : d - (t - (t + tz) `mod` 86400000) = (d + tz) `mod` 86400000).
    { apply (Z.mod_unique _ _ ((t + tz) `div` 86400000)); lia. }
    lia.
  - lia.
Qed.

Lemma startOfDay_startOfHour tz t :
  startOfDay tz (startOfHour tz t) = startOfDay tz t.
Proof.
  apply startOfDay_same_day.
  pose proof (startOfHour_bounds tz t) as Hb.
  unfold endOfDay, startOfDay, startOfHour, DAY, HOUR in *.
  pose proof (Z.mod_pos_bound (t + tz) 86400000).
  assert (E : (t + tz) `mod` 3600000
              = ((t + tz) `mod` 86400000) `mod` 3600000).
  { symmetry. apply Z.mod_mod_divide. exists 24. reflexivity. }
  pose proof (Z.mod_le ((t + tz) `mod` 86400000) 3600000).
  lia.
Qed.

(** ** One booking a day *)

Lemma day_exclusive_empty tz : day_exclusive tz ∅.
Proof. intros i j a b Hi. rewrite lookup_empty in Hi. discriminate. Qed.

Lemma day_exclusive_book tz (tbl : gmap Z Appointment) k userId pid t :
  day_exclusive tz tbl → ¬ same_day_booked tz userId t tbl →
  day_exclusive tz (<[k := booked userId pid (startOfHour tz t)]> tbl).
Proof.
  intros Hex Hfree i j a b Hi Hj Ha Hb Hu Hd.
  rewrite lookup_insert in Hi, Hj.
  destruct (decide (k = i)) as [Hki|Hki], (decide (k = j)) as [Hkj|Hkj];
    simplify_eq; cbn in *; auto.
  - exfalso. apply Hfree. exists j, b. repeat split; auto;
      apply startOfDay_same_day; by rewrite <- Hd, startOfDay_startOfHour.
  - exfalso. apply Hfree. exists i, a. repeat split; auto;
      apply startOfDay_same_day; by rewrite Hd, startOfDay_startOfHour.
  - eauto.
Qed.

Lemma day_exclusive_cancel tz (tbl : gmap Z Appointment) k a' :
  day_exclusive tz tbl → ¬ active a' → day_exclusive tz (<[k := a']> tbl).
Proof.
  intros Hex Hna i j a b Hi Hj Ha Hb Hp Hd.
  rewrite lookup_insert in Hi, Hj.
  destruct (decide (k = i)), (decide (k = j)); simplify_eq; try done.
  eauto.
Qed.

Lemma dispatch_preserves_day_exclusive tz fmt c db :
  day_exclusive tz (appointments db) →
  day_exclusive tz (appointments (dispatch tz fmt c db).2).
Proof.
  intros Hex. destruct c as [userId b now|userId k now1 now2 queue_ok]; cbn.
  - destruct (store_cases tz fmt userId b now db)
      as [[e ->]|(pid & t & -> & F & ->)]; [exact Hex|].
    rewrite accept_appointments.
    apply day_exclusive_book; [exact Hex|].
    apply first_failing_None in F as (_ & _ & _ & _ & F).
    intros Hday. apply day_probe_booked in Hday. by rewrite F in Hday.
  - rewrite delete_unfold.
    destruct (appointments db !! k) as [a|]; [|exact Hex].
    destruct (negb _); [exact Hex|].
    destruct (_ <? _); [exact Hex|].
    destruct (negb _); [exact Hex|].
    destruct queue_ok; cbn; by apply day_exclusive_cancel.
Qed.

(** X1.  Daily exclusivity: after any sequence of requests served from a
    table in which no client has two active appointments on one local day,
    still no client has two active appointments on one local day. *)
Theorem daily_exclusivity tz fmt (calls : list Call) : ∀ db,
  day_exclusive tz (appointments db) →
  day_exclusive tz (appointments (serve tz fmt calls db)).
Proof.
  induction calls as [|c cs IH]; intros db Hex; cbn; [exact Hex|].
  apply IH. by apply dispatch_preserves_day_exclusive.
Qed.

Lemma daily_exclusivity_witness :
  day_exclusive 0 (appointments db_empty)
  ∧ day_exclusive 0
      (appointments
         (serve 0 fmt0
            [POST_appointment 1 (valid_body 2 (jan10_14h + 1234))
               (jan10_14h - DAY);
             POST_appointment 1 (valid_body 2 (jan10_14h - 5 * HOUR))
               (jan10_14h - DAY);
             DELETE_appointment 1 1 (jan10_14h - DAY) (jan10_14h - DAY) true;
             POST_appointment 1 (valid_body 2 (jan10_14h - 5 * HOUR))
               (jan10_14h - DAY)]
            db_empty)).
Proof.
  split; [apply day_exclusive_empty|].
  apply (daily_exclusivity 0 fmt0 _ db_empty). apply day_exclusive_empty.
Defined.

(** ** Appointments are kept *)

Lemma evolves_refl a : evolves a a.
Proof. by repeat split. Qed.

Lemma evolves_trans a b c : evolves a b → evolves b c → evolves a c.
Proof.
  intros (Hu & Hp & Hd & Hc) (Hu' & Hp' & Hd' & Hc').
  repeat split; try congruence. intros x Hx. auto.
Qed.

Lemma dispatch_keeps_rows tz fmt c db k a :
  keys_below_seq db → appointments db !! k = Some a →
  ∃ a', appointments (dispatch tz fmt c db).2 !! k = Some a' ∧ evolves a a'.
Proof.
  intros Hkeys Hk.
  destruct c as [userId b now|userId k' now1 now2 queue_ok]; cbn.
  - destruct (store_cases tz fmt userId b now db)
      as [[e ->]|(pid & t & -> & F & ->)];
      [exists a; split; [done|apply evolves_refl]|].
    rewrite accept_appointments. exists a. split; [|apply evolves_refl].
    rewrite lookup_insert_ne; [done|]. apply Hkeys in Hk. lia.
  - rewrite delete_unfold.
    destruct (appointments db !! k') as [a0|] eqn:Hk';
      [|exists a; split; [done|apply evolves_refl]].
    destruct (negb _); [exists a; split; [done|apply evolves_refl]|].
    destruct (_ <? _); [exists a; split; [done|apply evolves_refl]|].
    destruct (canceled_at a0) eqn:Hc; cbn;
      [exists a; split; [done|apply evolves_refl]|].
    assert (Hrow : ∃ a',
      <[k' := {| user_id := user_id a0; provider_id := provider_id a0;
                 date := date a0; canceled_at := Some now2 |}]>
        (appointments db) !! k = Some a' ∧ evolves a a').
    { destruct (decide (k' = k)) as [->|Hne].
      - rewrite lookup_insert_eq. eexists. split; [reflexivity|].
        assert (a0 = a) as -> by congruence.
        repeat split. intros c Hc'. congruence.
      - rewrite lookup_insert_ne by done.
        exists a. split; [done|apply evolves_refl]. }
    destruct queue_ok; exact Hrow.
Qed.

(** X2.  Appointments are never deleted or overwritten: through any sequence
    of requests a stored row stays under its id with its client, provider
    and date, and once it is canceled its [canceled_at] stays what it is. *)
Theorem appointments_persist tz fmt (calls : list Call) : ∀ db k a,
  keys_below_seq db → appointments db !! k = Some a →
  ∃ a', appointments (serve tz fmt calls db) !! k = Some a' ∧ evolves a a'.
Proof.
  induction calls as [|c cs IH]; intros db k a Hkeys Hk; cbn.
  - exists a. split; [done|apply evolves_refl].
  - destruct (dispatch_keeps_rows tz fmt c db k a Hkeys Hk) as (a1 & Hk1 & E1).
    destruct (IH _ k a1 (dispatch_preserves_keys_below_seq tz fmt c db Hkeys)
                Hk1) as (a2 & Hk2 & E2).
    exists a2. split; [done|]. by eapply evolves_trans.
Qed.

Lemma keys_below_seq_db_canceled : keys_below_seq db_canceled.
Proof.
  intros k a. cbn. rewrite lookup_insert. case_decide; [lia|].
  by rewrite lookup_empty.
Qed.

Lemma appointments_persist_witness :
  keys_below_seq db_canceled
  ∧ (∃ a, appointments db_canceled !! 1 = Some a)
  ∧ ∃ a',
      appointments
        (serve 0 fmt0
           [DELETE_appointment 1 1 (jan10_14h - DAY) (jan10_14h - DAY) true;
            POST_appointment 3 (valid_body 2 jan10_14h) (jan10_14h - DAY)]
           db_canceled) !! 1 = Some a'
      ∧ canceled_at a' = Some (jan10_14h - DAY).
Proof.
  assert (Hk : appointments db_canceled !! 1
               = Some {| user_id := 1; provider_id := 2; date := jan10_14h;
                         canceled_at := Some (jan10_14h - DAY) |})
    by (by vm_compute).
  split; [exact keys_below_seq_db_canceled|]. split; [eauto|].
  destruct (appointments_persist 0 fmt0
              [DELETE_appointment 1 1 (jan10_14h - DAY) (jan10_14h - DAY) true;
               POST_appointment 3 (valid_body 2 jan10_14h) (jan10_14h - DAY)]
              db_canceled 1 _ keys_below_seq_db_canceled Hk)
    as (a' & Ha' & _ & _ & _ & Hc).
  exists a'. split; [exact Ha'|]. by apply Hc.
Defined.

(** ** Who may cancel, and what a cancellation writes *)

(** X3.  Only the owner cancels: for an appointment of another user,
    [delete] answers 401 with the permission error and writes nothing,
    whatever the clock says and whether or not the appointment is
    canceled. *)
Theorem cancel_forbidden userId k a now1 now2 queue_ok db :
  appointments db !! k = Some a → user_id a ≠ userId →
  delete userId k now1 now2 queue_ok db
  = (Sent (delete_error Forbidden), db).
Proof.
  intros Hk Hu. rewrite delete_unfold, Hk.
  by rewrite (proj2 (Z.eqb_neq _ _) Hu).
Qed.

Lemma cancel_forbidden_witness :
  appointments db_booked !! 1 = Some (booked 1 2 jan10_14h)
  ∧ user_id (booked 1 2 jan10_14h) ≠ 3
  ∧ delete 3 1 (jan10_14h - DAY) (jan10_14h - DAY) true db_booked
    = (Sent (delete_error Forbidden), db_booked).
Proof.
  assert (Hk : appointments db_booked !! 1 = Some (booked 1 2 jan10_14h))
    by (by vm_compute).
  assert (Hu : user_id (booked 1 2 jan10_14h) ≠ 3) by (cbn; lia).
  split; [exact Hk|]. split; [exact Hu|].
  apply (cancel_forbidden 3 1 _ (jan10_14h - DAY) (jan10_14h - DAY) true
           db_booked Hk Hu).
Defined.

(** X4.  [delete] changes the database only when the target exists, belongs
    to the requester, is not canceled and starts no sooner than two hours
    after the first clock reading; and then the target is canceled at the
    second reading, also when the enqueue fails. *)
Theorem cancel_writes_only_when_allowed userId k now1 now2 queue_ok db :
  (delete userId k now1 now2 queue_ok db).2 ≠ db →
  ∃ a, appointments db !! k = Some a
       ∧ user_id a = userId
       ∧ canceled_at a = None
       ∧ now1 ≤ date a - 2 * HOUR
       ∧ canceled_at
           <$> appointments (delete userId k now1 now2 queue_ok db).2 !! k
         = Some (Some now2).
Proof.
  rewrite delete_unfold.
  destruct (appointments db !! k) as [a|] eqn:Hk; [|done].
  destruct (Z.eqb_spec (user_id a) userId) as [Hu|Hu]; cbn; [|done].
  unfold subHours.
  destruct (Z.ltb_spec (date a - 2 * HOUR) now1); [done|].
  destruct (canceled_at a) eqn:Hc; cbn; [done|].
  intros _. exists a. repeat split; auto.
  destruct queue_ok; cbn; by rewrite lookup_insert_eq.
Qed.

Lemma cancel_writes_only_when_allowed_witness :
  (delete 1 1 (jan10_14h - DAY) (jan10_14h - DAY + 7) false db_booked).2
  ≠ db_booked
  ∧ ∃ a, appointments db_booked !! 1 = Some a ∧ user_id a = 1.
Proof.
  assert (Hw : (delete 1 1 (jan10_14h - DAY) (jan10_14h - DAY + 7) false
                  db_booked).2 ≠ db_booked).
  { intros E.
    apply (f_equal (λ d, canceled_at <$> appointments d !! 1)) in E.
    vm_compute in E. discriminate. }
  split; [exact Hw|].
  destruct (cancel_writes_only_when_allowed 1 1 (jan10_14h - DAY)
              (jan10_14h - DAY + 7) false db_booked Hw)
    as (a & Hk & Hu & _).
  exists a. by split.
Defined.

(** ** How booking and cancelling compose *)

Lemma store_error_inj e1 e2 : store_error e1 = store_error e2 → e1 = e2.
Proof. destruct e1, e2; intros E; try reflexivity; discriminate. Qed.

Lemma store_slot_taken_occupied tz fmt userId v t now db :
  (store tz fmt userId (request_body v t) now db).1
  = Sent (store_error SlotTaken) →
  occupied (column_value v) (startOfHour tz t) (appointments db).
Proof.
  unfold request_body. rewrite store_valid.
  unfold first_failing, code_checks, booking_checks, accept. cbn.
  destruct (strict_equal v userId); cbn; [discriminate|].
  destruct (users db !! column_value v) as [u|]; cbn; [|discriminate].
  destruct (provider u); cbn; [|discriminate].
  destruct (_ <? _); cbn; [discriminate|].
  destruct (is_null (findOne (where_slot _ _) _)) eqn:E; cbn.
  - destruct (is_null (findOne (where_user_day _ _ _) _)); cbn;
      [|discriminate].
    destruct (users db !! userId); discriminate.
  - intros _. by apply slot_probe_occupied.
Qed.

(** X5.  A cancellation frees the slot: when the slots are exclusive and
    [delete] answers 200, no active appointment is left at the provider and
    hour of the canceled one, so no later request for that slot is answered
    SlotTaken. *)
Theorem cancel_frees_slot tz fmt userId k now1 now2 queue_ok db i :
  slot_exclusive (appointments db) →
  (delete userId k now1 now2 queue_ok db).1 = Sent (ok i) →
  let db' := (delete userId k now1 now2 queue_ok db).2 in
  ¬ occupied (provider_id (row i)) (date (row i)) (appointments db')
  ∧ ∀ u (v : JsonId) t now,
      column_value v = provider_id (row i) →
      startOfHour tz t = date (row i) →
      (store tz fmt u (request_body v t) now db').1
      ≠ Sent (store_error SlotTaken).
Proof.
  intros Hex Hok db'.
  assert (Hfree : ¬ occupied (provider_id (row i)) (date (row i))
                      (appointments db')).
  { subst db'. revert Hok. rewrite delete_unfold.
    destruct (appointments db !! k) as [a|] eqn:Hk; [|discriminate].
    destruct (negb _); [discriminate|].
    destruct (_ <? _); [discriminate|].
    destruct (canceled_at a) eqn:Hc; cbn; [discriminate|].
    destruct queue_ok; cbn; [|discriminate].
    intros [= <-]. cbn. intros (j & b & Hj & Hp & Hb & Hd).
    rewrite lookup_insert in Hj. case_decide; simplify_eq; [done|].
    assert (j = k) by (by eapply (Hex j k b a)). done. }
  split; [exact Hfree|].
  intros u v t now Hv Ht Htaken. apply Hfree. rewrite <- Ht, <- Hv.
  by eapply store_slot_taken_occupied.
Qed.

(** Ana cancels her 14:00 with Bia; Caio then books Bia at 14:00. *)
Lemma cancel_frees_slot_witness :
  slot_exclusive (appointments db_booked)
  ∧ (delete 1 1 (jan10_14h - DAY) (jan10_14h - DAY) true db_booked).1
    = Sent (ok (set_canceled_at (loaded db_booked 1 (booked 1 2 jan10_14h))
                  (jan10_14h - DAY)))
  ∧ (store 0 fmt0 3 (valid_body 2 jan10_14h) (jan10_14h - DAY)
       (delete 1 1 (jan10_14h - DAY) (jan10_14h - DAY) true db_booked).2).1
    ≠ Sent (store_error SlotTaken).
Proof.
  assert (Hok : (delete 1 1 (jan10_14h - DAY) (jan10_14h - DAY) true
                   db_booked).1
                = Sent (ok (set_canceled_at
                              (loaded db_booked 1 (booked 1 2 jan10_14h))
                              (jan10_14h - DAY))))
    by (by vm_compute).
  split; [exact slot_exclusive_db_booked|]. split; [exact Hok|].
  destruct (cancel_frees_slot 0 fmt0 1 1 (jan10_14h - DAY) (jan10_14h - DAY)
              true db_booked _ slot_exclusive_db_booked Hok) as [_ Hstore].
  apply (Hstore 3 (json_number 2) jan10_14h (jan10_14h - DAY));
    by vm_compute.
Defined.

(** What a 200 answer of [store] says about the request and the database. *)
Lemma store_ok_inv tz fmt userId b now db i :
  (store tz fmt userId b now db).1 = Sent (ok i) →
  ∃ v t u,
    b = request_body v t
    ∧ first_failing (code_checks tz userId v t now db) = None
    ∧ users db !! userId = Some u
    ∧ i = created db userId (column_value v) (startOfHour tz t)
    ∧ store tz fmt userId b now db
      = accept fmt db userId (column_value v) (startOfHour tz t).
Proof.
  intros Hok.
  destruct (store_cases tz fmt userId b now db)
    as [[e He]|(v & t & Hb & F & Hs)].
  - rewrite He in Hok. discriminate.
  - rewrite Hs in Hok. unfold accept in Hok.
    destruct (users db !! userId) as [u|] eqn:Hu; [|discriminate].
    injection Hok as <-. exists v, t, u.
    repeat split; auto.
Qed.

(** X6.  Book, then cancel: the appointment [store] answers with can be
    canceled under its id by the client who booked it exactly while the
    clock is at most two hours before its start, and by nobody else. *)
Theorem book_then_cancel tz fmt userId b now db i now1 now2 :
  (store tz fmt userId b now db).1 = Sent (ok i) →
  let db' := (store tz fmt userId b now db).2 in
  (cancel_succeeds (delete userId (id i) now1 now2 true db')
   ↔ now1 ≤ date (row i) - 2 * HOUR)
  ∧ ∀ other queue_ok, other ≠ userId →
      delete other (id i) now1 now2 queue_ok db'
      = (Sent (delete_error Forbidden), db').
Proof.
  intros Hok db'.
  destruct (store_ok_inv tz fmt userId b now db i Hok)
    as (v & t & u & -> & _ & Hu & -> & Hs).
  assert (Hk : appointments db' !! appointments_seq db
               = Some (booked userId (column_value v) (startOfHour tz t))).
  { subst db'. rewrite Hs, accept_appointments. apply lookup_insert_eq. }
  cbn. split.
  - rewrite delete_unfold, Hk. cbn. rewrite Z.eqb_refl. cbn.
    unfold subHours, cancel_succeeds.
    destruct (Z.ltb_spec (startOfHour tz t - 2 * HOUR) now1); cbn.
    + split; [intros [j Hj]; discriminate|lia].
    + split; [lia|eauto].
  - intros other queue_ok Hother. rewrite delete_unfold, Hk. cbn.
    by rewrite (proj2 (Z.eqb_neq _ _) (not_eq_sym Hother)).
Qed.

Lemma book_then_cancel_witness :
  (store 0 fmt0 1 (valid_body 2 (jan10_14h + 1234)) (jan10_14h - DAY)
     db_empty).1
  = Sent (ok (created db_empty 1 2 jan10_14h))
  ∧ cancel_succeeds
      (delete 1 1 (jan10_14h - 2 * HOUR) (jan10_14h - 2 * HOUR) true
         (store 0 fmt0 1 (valid_body 2 (jan10_14h + 1234)) (jan10_14h - DAY)
            db_empty).2).
Proof.
  assert (Hok : (store 0 fmt0 1 (valid_body 2 (jan10_14h + 1234))
                   (jan10_14h - DAY) db_empty).1
                = Sent (ok (created db_empty 1 2 jan10_14h)))
    by (by vm_compute).
  split; [exact Hok|].
  destruct (book_then_cancel 0 fmt0 1 _ (jan10_14h - DAY) db_empty _
              (jan10_14h - 2 * HOUR) (jan10_14h - 2 * HOUR) Hok)
    as [Hiff _].
  apply Hiff. by vm_compute.
Defined.

(** ** What a booking that is answered 200 has done *)

(** X7.  When [store] answers 200, every check of the code has passed (the
    [provider_id] is not the requester's own id sent as a number, the user
    it denotes is flagged as a provider, the hour has not begun before [now],
    the slot was free, the client had no active appointment that local day);
    the answer is the new row, under the next id of the sequence, at the
    start of the local hour of the requested date; and exactly one
    notification has been appended, addressed to the provider, with the
    client's name and the formatted hour.  The queue is not touched. *)
Theorem store_success tz fmt userId b now db i :
  (store tz fmt userId b now db).1 = Sent (ok i) →
  let db' := (store tz fmt userId b now db).2 in
  ∃ v t u,
    let pid := column_value v in
    b = request_body v t
    ∧ users db !! userId = Some u
    ∧ v ≠ json_number userId ∧ is_provider pid db
    ∧ now ≤ startOfHour tz t
    ∧ ¬ occupied pid (startOfHour tz t) (appointments db)
    ∧ ¬ same_day_booked tz userId t (appointments db)
    ∧ id i = appointments_seq db
    ∧ row i = booked userId pid (startOfHour tz t)
    ∧ startOfHour tz t ≤ t < startOfHour tz t + HOUR
    ∧ (startOfHour tz t + tz) `mod` HOUR = 0
    ∧ appointments db' !! id i = Some (row i)
    ∧ appointments_seq db' = appointments_seq db + 1
    ∧ notifications db'
      = notifications db
        ++ [{| content := ("Novo agendamento de " ++ name u ++ " para "
                           ++ fmt (startOfHour tz t))%string;
               user := pid |}]
    ∧ queue db' = queue db.
Proof.
  intros Hok db'.
  destruct (store_ok_inv tz fmt userId b now db i Hok)
    as (v & t & u & -> & F & Hu & -> & Hs).
  apply first_failing_None in F as (Hne & Hp & Hnow & Hfree & Hday).
  exists v, t, u. subst db'. rewrite Hs. unfold accept. rewrite Hu. cbn.
  split; [done|]. split; [done|].
  split.
  { intros ->. cbn in Hne. by rewrite Z.eqb_refl in Hne. }
  split; [done|]. split; [done|]. split; [done|].
  split.
  { intros Hb. apply day_probe_booked in Hb. by rewrite Hday in Hb. }
  split; [done|]. split; [done|].
  split; [apply startOfHour_bounds|].
  split; [apply startOfHour_on_the_hour|].
  split; [apply lookup_insert_eq|]. done.
Qed.

Lemma store_success_witness :
  (store 0 fmt0 1 (valid_body 2 (jan10_14h + 1234)) (jan10_14h - DAY)
     db_empty).1
  = Sent (ok (created db_empty 1 2 jan10_14h))
  ∧ length
      (notifications
         (store 0 fmt0 1 (valid_body 2 (jan10_14h + 1234)) (jan10_14h - DAY)
            db_empty).2)
    = 1%nat.
Proof.
  assert (Hok : (store 0 fmt0 1 (valid_body 2 (jan10_14h + 1234))
                   (jan10_14h - DAY) db_empty).1
                = Sent (ok (created db_empty 1 2 jan10_14h)))
    by (by vm_compute).
  split; [exact Hok|].
  destruct (store_success 0 fmt0 1 _ (jan10_14h - DAY) db_empty _ Hok)
    as (pid & t & u & _ & _ & _ & _ & _ & _ & _ & _ & _ & _ & _ & _ & _
        & Hn & _).
  rewrite Hn. reflexivity.
Defined.

(** ** What a cancellation that is answered 200 has enqueued *)

(** X8.  When [delete] answers 200, exactly one job has been appended to the
    queue: a cancellation-mail job that carries the answered appointment, the
    row canceled at the second clock reading together with the provider's
    name and e-mail and the client's name as the users table has them. *)
Theorem cancel_success_enqueues userId k now1 now2 queue_ok db i :
  (delete userId k now1 now2 queue_ok db).1 = Sent (ok i) →
  let db' := (delete userId k now1 now2 queue_ok db).2 in
  queue db'
  = queue db ++ [{| job_key := CancelationMail_key; job_appointment := i |}]
  ∧ canceled_at (row i) = Some now2
  ∧ user_id (row i) = userId
  ∧ inc_provider i
    = (λ u, (name u, email u)) <$> users db !! provider_id (row i)
  ∧ inc_user i = name <$> users db !! userId.
Proof.
  rewrite delete_unfold.
  destruct (appointments db !! k) as [a|] eqn:Hk; [|discriminate].
  destruct (Z.eqb_spec (user_id a) userId) as [Hu|Hu]; cbn; [|discriminate].
  destruct (subHours (date a) 2 <? now1); [discriminate|].
  destruct (canceled_at a) eqn:Hc; cbn; [discriminate|].
  destruct queue_ok; cbn; [|discriminate].
  intros [= <-]. cbn. by rewrite Hu.
Qed.

Lemma cancel_success_enqueues_witness :
  (delete 1 1 (jan10_14h - DAY) (jan10_14h - DAY + 7) true db_booked).1
  = Sent (ok (set_canceled_at (loaded db_booked 1 (booked 1 2 jan10_14h))
                (jan10_14h - DAY + 7)))
  ∧ length
      (queue
         (delete 1 1 (jan10_14h - DAY) (jan10_14h - DAY + 7) true
            db_booked).2)
    = 1%nat.
Proof.
  assert (Hok : (delete 1 1 (jan10_14h - DAY) (jan10_14h - DAY + 7) true
                   db_booked).1
                = Sent (ok (set_canceled_at
                              (loaded db_booked 1 (booked 1 2 jan10_14h))
                              (jan10_14h - DAY + 7))))
    by (by vm_compute).
  split; [exact Hok|].
  destruct (cancel_success_enqueues 1 1 (jan10_14h - DAY)
              (jan10_14h - DAY + 7) true db_booked _ Hok) as [Hq _].
  rewrite Hq. reflexivity.
Defined.

(** ** The notifications and the queue only grow *)

Lemma dispatch_appends tz fmt c db :
  notifications db `prefix_of` notifications (dispatch tz fmt c db).2
  ∧ queue db `prefix_of` queue (dispatch tz fmt c db).2
  ∧ users (dispatch tz fmt c db).2 = users db.
Proof.
  destruct c as [userId b now|userId k now1 now2 queue_ok]; cbn.
  - destruct (store_cases tz fmt userId b now db)
      as [[e ->]|(pid & t & -> & F & ->)]; [done|].
    unfold accept. destruct (users db !! userId); cbn; [|done].
    split; [by apply prefix_app_r|done].
  - rewrite delete_unfold.
    destruct (appointments db !! k) as [a|]; [|done].
    destruct (negb _); [done|].
    destruct (_ <? _); [done|].
    destruct (negb _); [done|].
    destruct queue_ok; cbn; [|done].
    split; [done|]. split; [by apply prefix_app_r|done].
Qed.

(** X9.  Through any sequence of requests the notifications and the queue
    are append-only, what was there stays at the front in its order, and the
    users table is not written.  A booking request never enqueues and a
    cancellation request never notifies. *)
Theorem sinks_append_only tz fmt (calls : list Call) (db : DB) :
  notifications db `prefix_of` notifications (serve tz fmt calls db)
  ∧ queue db `prefix_of` queue (serve tz fmt calls db)
  ∧ users (serve tz fmt calls db) = users db
  ∧ (∀ userId b now, queue (store tz fmt userId b now db).2 = queue db)
  ∧ (∀ userId k now1 now2 queue_ok,
       notifications (delete userId k now1 now2 queue_ok db).2
       = notifications db).
Proof.
  split; [|split; [|split; [|split]]].
  - revert db. induction calls as [|c cs IH]; intros db; cbn; [done|].
    etrans; [apply (dispatch_appends tz fmt c db)|apply IH].
  - revert db. induction calls as [|c cs IH]; intros db; cbn; [done|].
    etrans; [apply (dispatch_appends tz fmt c db)|apply IH].
  - revert db. induction calls as [|c cs IH]; intros db; cbn; [done|].
    rewrite IH. apply (dispatch_appends tz fmt c db).
  - intros userId b now.
    destruct (store_cases tz fmt userId b now db)
      as [[e ->]|(pid & t & -> & F & ->)]; [done|].
    unfold accept. by destruct (users db !! userId).
  - intros userId k now1 now2 queue_ok. rewrite delete_unfold.
    destruct (appointments db !! k) as [a|]; [|done].
    destruct (negb _); [done|].
    destruct (_ <? _); [done|].
    destruct (negb _); [done|].
    by destruct queue_ok.
Qed.

(** ** Malformed bodies *)

(** X10.  [store] answers with the validation error exactly when the body
    lacks a numeric [provider_id] or a [date]; it then writes nothing,
    whoever asks and whatever the clock and the database are. *)
Theorem validation_error_iff tz fmt userId b now db :
  ((store tz fmt userId b now db).1 = Sent (store_error ValidationError)
   ↔ body_provider_id b = None ∨ body_date b = None)
  ∧ (body_provider_id b = None ∨ body_date b = None →
     store tz fmt userId b now db = (Sent (store_error ValidationError), db)).
Proof.
  assert (Hbad : body_provider_id b = None ∨ body_date b = None →
                 store tz fmt userId b now db
                 = (Sent (store_error ValidationError), db)).
  { intros Hb. apply store_invalid. unfold schema_isValid.
    destruct Hb as [-> | ->]; cbn; [done|]. apply andb_false_r. }
  split; [|exact Hbad]. split; [|intros Hb; by rewrite Hbad].
  destruct b as [[pid|] [t|]]; [|cbn; auto..].
  rewrite store_valid.
  destruct (first_failing _) as [e|] eqn:F; cbn.
  - intros E. assert (e = ValidationError) as ->
      by (apply store_error_inj; congruence).
    exfalso.
    revert F. unfold first_failing, code_checks, booking_checks. cbn.
    destruct (strict_equal pid userId); cbn; [discriminate|].
    destruct (match users db !! column_value pid with
              | Some u => provider u
              | None => false
              end); cbn; [|discriminate].
    destruct (_ <? _); cbn; [discriminate|].
    destruct (is_null (findOne (where_slot _ _) _)); cbn; [|discriminate].
    destruct (is_null (findOne (where_user_day _ _ _) _)); cbn; discriminate.
  - unfold accept. destruct (users db !! userId); discriminate.
Qed.

Lemma validation_error_iff_witness :
  store 0 fmt0 1
    {| body_provider_id := Some (json_number 1); body_date := None |}
    jan10_14h db_booked
  = (Sent (store_error ValidationError), db_booked).
Proof.
  apply (validation_error_iff 0 fmt0 1
           {| body_provider_id := Some (json_number 1); body_date := None |}
           jan10_14h db_booked).
  right. reflexivity.
Defined.

(** ** Every appointment is well formed *)

Lemma dispatch_preserves_well_booked tz fmt c db :
  well_booked tz db → well_booked tz (dispatch tz fmt c db).2.
Proof.
  intros Hwb.
  assert (Hprov : ∀ p, is_provider p db →
                       is_provider p (dispatch tz fmt c db).2).
  { intros p. unfold is_provider.
    by rewrite (proj2 (proj2 (dispatch_appends tz fmt c db))). }
  intros k a Hk.
  assert (Hold : (∃ a0, appointments db !! k = Some a0
                        ∧ provider_id a = provider_id a0
                        ∧ date a = date a0)
                 ∨ is_provider (provider_id a) db
                   ∧ startOfHour tz (date a) = date a).
  { revert Hk. clear Hprov.
    destruct c as [userId b now|userId k' now1 now2 queue_ok]; cbn.
    - destruct (store_cases tz fmt userId b now db)
        as [[e ->]|(v & t & -> & F & ->)]; [by eauto 10|].
      rewrite accept_appointments, lookup_insert.
      case_decide; [|by eauto 10].
      intros [= <-]. cbn.
      apply first_failing_None in F as (_ & Hp & _).
      right. split; [done|].
      apply startOfHour_fixpoint, startOfHour_on_the_hour.
    - rewrite delete_unfold.
      destruct (appointments db !! k') as [a0|] eqn:Hk'; [|by eauto 10].
      destruct (negb _); [by eauto 10|].
      destruct (_ <? _); [by eauto 10|].
      destruct (negb _); [by eauto 10|].
      assert (Hrow : <[k' := {| user_id := user_id a0;
                                provider_id := provider_id a0;
                                date := date a0;
                                canceled_at := Some now2 |}]>
                       (appointments db) !! k = Some a →
                     ∃ a1, appointments db !! k = Some a1
                           ∧ provider_id a = provider_id a1
                           ∧ date a = date a1).
      { rewrite lookup_insert. case_decide; [|by eauto 10].
        intros [= <-]. subst. by eauto 10. }
      destruct queue_ok; cbn; intros Hk; left; by apply Hrow. }
  destruct Hold as [(a0 & Hk0 & Hp & Hd)|(Hp & Hh)].
  - destruct (Hwb k a0 Hk0) as (Hp0 & Hh).
    rewrite Hp, Hd. split; [by apply Hprov|done].
  - split; [by apply Hprov|done].
Qed.

(** X11.  Through any sequence of requests every appointment stays with a
    user who is flagged as a provider, at a date that is the start of a
    local hour. *)
Theorem appointments_well_booked tz fmt (calls : list Call) : ∀ db,
  well_booked tz db → well_booked tz (serve tz fmt calls db).
Proof.
  induction calls as [|c cs IH]; intros db Hwb; cbn; [exact Hwb|].
  apply IH. by apply dispatch_preserves_well_booked.
Qed.

Lemma well_booked_db_empty : well_booked 0 db_empty.
Proof. intros k a Hk. cbn in Hk. by rewrite lookup_empty in Hk. Qed.

Lemma appointments_well_booked_witness :
  well_booked 0 db_empty
  ∧ well_booked 0
      (serve 0 fmt0
         [POST_appointment 1 (valid_body 2 (jan10_14h + 1234))
            (jan10_14h - DAY);
          POST_appointment 2 (valid_body 2 jan10_14h) (jan10_14h - DAY);
          POST_appointment 3 (valid_body 1 jan10_14h) (jan10_14h - DAY)]
         db_empty).
Proof.
  split; [exact well_booked_db_empty|].
  apply (appointments_well_booked 0 fmt0 _ db_empty well_booked_db_empty).
Defined.

(** ** The listing *)

#[global] Instance by_date_trans : Transitive by_date.
Proof. intros x y z. unfold by_date. lia. Qed.

#[global] Instance by_date_total : Total by_date.
Proof. intros x y. unfold by_date. lia. Qed.

Lemma where_index_true userId a :
  where_index userId a = true ↔ user_id a = userId ∧ active a.
Proof.
  unfold where_index, active, is_null.
  destruct (canceled_at a); rewrite andb_true_iff, Z.eqb_eq;
    intuition congruence.
Qed.

(** The rows the query is cut from: those that satisfy the clause, by
    date. *)
Lemma elem_of_sorted_rows (w : Appointment → bool) (t : gmap Z Appointment)
    (x : Z * Appointment) :
  x ∈ merge_sort by_date (List.filter (λ kv, w kv.2) (map_to_list t))
  ↔ t !! x.1 = Some x.2 ∧ w x.2 = true.
Proof.
  rewrite merge_sort_Permutation, list_elem_of_In, filter_In,
    <- list_elem_of_In.
  destruct x as [k a]. by rewrite elem_of_map_to_list.
Qed.

Lemma elem_of_findAll_page w limit offset t (x : Z * Appointment) :
  x ∈ findAll_page w limit offset t → t !! x.1 = Some x.2 ∧ w x.2 = true.
Proof.
  unfold findAll_page. intros Hx.
  apply elem_of_take in Hx as (i & Hi & _). rewrite lookup_drop in Hi.
  apply elem_of_sorted_rows, list_elem_of_lookup. eauto.
Qed.

Lemma findAll_page_sorted w limit offset t :
  StronglySorted by_date (findAll_page w limit offset t).
Proof.
  unfold findAll_page.
  set (l := merge_sort by_date _).
  assert (Hl : StronglySorted by_date l)
    by (apply StronglySorted_merge_sort; apply _).
  rewrite <- (take_drop (Z.to_nat offset) l) in Hl.
  apply StronglySorted_app_1_r in Hl.
  rewrite <- (take_drop (Z.to_nat limit) (drop _ l)) in Hl.
  by apply StronglySorted_app_1_l in Hl.
Qed.

Lemma index_elem past cancelable avatar userId query_page db item :
  item ∈ index past cancelable avatar userId query_page db →
  ∃ a, appointments db !! listed_id item = Some a
       ∧ user_id a = userId
       ∧ active a
       ∧ listed_date item = date a
       ∧ listed_past item = past a
       ∧ listed_cancelable item = cancelable a
       ∧ listed_provider item
         = (λ u, {| listed_provider_id := provider_id a;
                    listed_provider_name := name u;
                    listed_avatar := avatar (provider_id a) |})
             <$> users db !! provider_id a.
Proof.
  intros Hitem. unfold index in Hitem.
  apply list_elem_of_fmap in Hitem as ([k a] & -> & Hx).
  apply elem_of_findAll_page in Hx as [Hk Hw].
  apply where_index_true in Hw as [Hu Ha]. cbn in *.
  exists a. repeat split; auto.
Qed.

(** X12.  Every element of a page of [index] is an active appointment of
    the requester: it is stored under the listed id, not canceled, booked by
    the requester, and listed with its own date and virtual attributes and
    with the provider of the row, joined from the users table with its name
    and avatar (null when the user is gone). *)
Theorem index_sound past cancelable avatar userId query_page db item :
  1 ≤ default 1 query_page →
  item ∈ index past cancelable avatar userId query_page db →
  ∃ a, appointments db !! listed_id item = Some a
       ∧ user_id a = userId
       ∧ active a
       ∧ listed_date item = date a
       ∧ listed_past item = past a
       ∧ listed_cancelable item = cancelable a
       ∧ listed_provider item
         = (λ u, {| listed_provider_id := provider_id a;
                    listed_provider_name := name u;
                    listed_avatar := avatar (provider_id a) |})
             <$> users db !! provider_id a.
Proof. intros _. apply index_elem. Qed.

Lemma index_sound_witness :
  1 ≤ default 1 (Some 1)
  ∧ {| listed_id := 1; listed_date := jan10_14h; listed_past := false;
       listed_cancelable := true;
       listed_provider :=
         Some {| listed_provider_id := 2; listed_provider_name := "Bia";
                 listed_avatar := None |} |}
    ∈ index (λ _, false) (λ _, true) (λ _, None) 1 (Some 1) db_booked
  ∧ ∃ a, appointments db_booked !! 1 = Some a ∧ active a.
Proof.
  assert (Hp : 1 ≤ default 1 (Some 1)) by (cbn; lia).
  assert (Hin : {| listed_id := 1; listed_date := jan10_14h;
                   listed_past := false; listed_cancelable := true;
                   listed_provider :=
                     Some {| listed_provider_id := 2;
                             listed_provider_name := "Bia";
                             listed_avatar := None |} |}
                ∈ index (λ _, false) (λ _, true) (λ _, None) 1 (Some 1)
                    db_booked)
    by (vm_compute; apply list_elem_of_here).
  split; [exact Hp|]. split; [exact Hin|].
  destruct (index_sound _ _ _ 1 (Some 1) db_booked _ Hp Hin)
    as (a & Hk & _ & Ha & _).
  exists a. by split.
Defined.

(** X13.  A page of [index] has at most twenty elements, in the order of
    their dates, and lists no id twice. *)
Theorem index_page_shape past cancelable avatar userId query_page db :
  1 ≤ default 1 query_page →
  let page := index past cancelable avatar userId query_page db in
  (length page ≤ 20)%nat
  ∧ StronglySorted Z.le (listed_date <$> page)
  ∧ NoDup (listed_ids page).
Proof.
  intros _ page. subst page. unfold index, listed_ids.
  set (rows := findAll_page _ _ _ _).
  split; [|split].
  - rewrite length_fmap. unfold rows, findAll_page.
    rewrite length_take. lia.
  - rewrite <- list_fmap_compose.
    eapply StronglySorted_fmap with (R1 := by_date);
      [|apply findAll_page_sorted].
    intros x y Hxy. exact Hxy.
  - rewrite <- list_fmap_compose.
    assert (Hrows : NoDup rows.*1).
    { unfold rows, findAll_page.
      set (l := merge_sort by_date _).
      assert (Hl : NoDup l.*1).
      { unfold l. rewrite merge_sort_Permutation.
        eapply sublist_NoDup;
          [apply (NoDup_fst_map_to_list (appointments db))|].
        apply fmap_sublist. clear.
        induction (map_to_list (appointments db)) as [|x xs IH]; cbn;
          [constructor|].
        destruct (where_index userId x.2); by constructor. }
      eapply sublist_NoDup; [exact Hl|].
      apply fmap_sublist.
      etrans; [apply sublist_take|apply sublist_drop]. }
    exact Hrows.
Qed.

Lemma index_page_shape_witness :
  1 ≤ default 1 None
  ∧ (length (index (λ _, false) (λ _, true) (λ _, None) 1 None db_booked)
     ≤ 20)%nat.
Proof.
  assert (Hp : 1 ≤ default 1 None) by (cbn; lia).
  split; [exact Hp|].
  apply (index_page_shape (λ _, false) (λ _, true) (λ _, None) 1 None
           db_booked Hp).
Defined.

Lemma index_page_of past cancelable avatar userId db k a :
  appointments db !! k = Some a → user_id a = userId → active a →
  ∃ page item,
    1 ≤ page
    ∧ item ∈ index past cancelable avatar userId (Some page) db
    ∧ listed_id item = k ∧ listed_date item = date a.
Proof.
  intros Hk Hu Ha.
  set (l := merge_sort by_date
              (List.filter (λ kv : Z * Appointment, where_index userId kv.2)
                 (map_to_list (appointments db)))).
  assert (Hin : (k, a) ∈ l).
  { apply elem_of_sorted_rows. split; [done|]. by apply where_index_true. }
  apply list_elem_of_lookup in Hin as [n Hn].
  exists (Z.of_nat (n / 20) + 1). eexists. split; [lia|].
  split.
  { assert (Hoff : Z.to_nat ((default 1 (Some (Z.of_nat (n / 20) + 1)) - 1)
                             * 20) = (n / 20 * 20)%nat)
      by (unfold default; cbn; lia).
    unfold index. apply (list_elem_of_fmap_2 _ _ (k, a)).
    unfold findAll_page. fold l. rewrite Hoff.
    apply elem_of_take. exists (n `mod` 20)%nat. split.
    - rewrite lookup_drop.
      replace (n / 20 * 20 + n `mod` 20)%nat with n; [exact Hn|].
      pose proof (Nat.div_mod_eq n 20). lia.
    - replace (Z.to_nat 20) with 20%nat by reflexivity.
      apply Nat.mod_upper_bound. lia. }
  split; reflexivity.
Qed.

(** X14.  Every active appointment of the requester is on some page of
    [index], from page 1 on, listed under its id with its date. *)
Theorem index_complete past cancelable avatar userId db k a :
  appointments db !! k = Some a → user_id a = userId → active a →
  ∃ page item,
    1 ≤ page
    ∧ item ∈ index past cancelable avatar userId (Some page) db
    ∧ listed_id item = k ∧ listed_date item = date a.
Proof. apply index_page_of. Qed.

Lemma index_complete_witness :
  appointments db_booked !! 1 = Some (booked 1 2 jan10_14h)
  ∧ ∃ page item,
      1 ≤ page
      ∧ item ∈ index (λ _, false) (λ _, true) (λ _, None) 1 (Some page)
                 db_booked
      ∧ listed_id item = 1 ∧ listed_date item = jan10_14h.
Proof.
  assert (Hk : appointments db_booked !! 1 = Some (booked 1 2 jan10_14h))
    by (by vm_compute).
  split; [exact Hk|].
  apply (index_complete (λ _, false) (λ _, true) (λ _, None) 1 db_booked 1
           (booked 1 2 jan10_14h) Hk eq_refl eq_refl).
Defined.

(** X15.  The listing follows the bookings: the appointment [store] answers
    with is on some page of the client's listing afterwards, and an
    appointment [delete] has answered 200 for is on no page of anybody's
    listing afterwards. *)
Theorem index_follows_bookings tz fmt past cancelable avatar userId db i :
  (∀ b now,
     (store tz fmt userId b now db).1 = Sent (ok i) →
     ∃ page, 1 ≤ page
       ∧ id i ∈ listed_ids
                  (index past cancelable avatar userId (Some page)
                     (store tz fmt userId b now db).2))
  ∧ (∀ k now1 now2 queue_ok,
       (delete userId k now1 now2 queue_ok db).1 = Sent (ok i) →
       ∀ reader page, 1 ≤ page →
         k ∉ listed_ids
               (index past cancelable avatar reader (Some page)
                  (delete userId k now1 now2 queue_ok db).2)).
Proof.
  split.
  - intros b now Hok.
    destruct (store_ok_inv tz fmt userId b now db i Hok)
      as (v & t & u & -> & _ & Hu & -> & Hs).
    destruct (index_page_of past cancelable avatar userId
                (store tz fmt userId (request_body v t) now db).2
                (appointments_seq db)
                (booked userId (column_value v) (startOfHour tz t)))
      as (page & item & Hpage & Hitem & Hid & _); try done.
    { rewrite Hs, accept_appointments. apply lookup_insert_eq. }
    exists page. split; [done|]. cbn. rewrite <- Hid.
    unfold listed_ids. by apply list_elem_of_fmap_2.
  - intros k now1 now2 queue_ok Hok reader page Hpage Hin.
    unfold listed_ids in Hin.
    apply list_elem_of_fmap in Hin as (item & -> & Hitem).
    apply index_elem in Hitem as (a & Hk & _ & Ha & _).
    revert Hok Hk. rewrite delete_unfold.
    destruct (appointments db !! listed_id item) as [a0|]; [|discriminate].
    destruct (negb _); [discriminate|].
    destruct (_ <? _); [discriminate|].
    destruct (negb _); [discriminate|].
    destruct queue_ok; cbn; [|discriminate].
    intros _. rewrite lookup_insert_eq. intros [= <-]. discriminate.
Qed.

Lemma index_follows_bookings_witness :
  (store 0 fmt0 1 (valid_body 2 (jan10_14h + 1234)) (jan10_14h - DAY)
     db_empty).1
  = Sent (ok (created db_empty 1 2 jan10_14h))
  ∧ ∃ page, 1 ≤ page
      ∧ 1 ∈ listed_ids
              (index (λ _, false) (λ _, true) (λ _, None) 1 (Some page)
                 (store 0 fmt0 1 (valid_body 2 (jan10_14h + 1234))
                    (jan10_14h - DAY) db_empty).2).
Proof.
  assert (Hok : (store 0 fmt0 1 (valid_body 2 (jan10_14h + 1234))
                   (jan10_14h - DAY) db_empty).1
                = Sent (ok (created db_empty 1 2 jan10_14h)))
    by (by vm_compute).
  split; [exact Hok|].
  destruct (index_follows_bookings 0 fmt0 (λ _, false) (λ _, true) (λ _, None)
              1 db_empty (created db_empty 1 2 jan10_14h)) as [Hbook _].
  apply (Hbook _ _ Hok).
Defined.

(** ** The router *)

Ltac route_cases :=
  cbn;
  repeat (match goal with
          | |- context [if ?c then _ else _] => destruct c eqn:?
          end; cbn).

(** X16.  Without authentication only the sign-up and the log-in are
    reachable: when the authentication middleware does not call [next()], a
    request ends in [UserController.store] or [SessionController.store]
    (a POST whose path matches their routes) or in the middleware itself;
    no other action runs, whatever the method and the path. *)
Theorem routes_behind_auth path_matches calls_next m path :
  calls_next authMiddleware = false →
  let r := route_request path_matches calls_next routes m path in
  (r = Handled UserController_store
   ∧ m = POST ∧ path_matches "/users" path = true)
  ∨ (r = Handled SessionController_store
     ∧ m = POST ∧ path_matches "/sessions" path = true)
  ∨ r = Stopped authMiddleware.
Proof.
  intros Hauth r. subst r. unfold routes.
  destruct m; cbn; rewrite ?Hauth; auto;
    destruct (path_matches "/users" path) eqn:?; cbn; auto;
    destruct (path_matches "/sessions" path) eqn:?; cbn; auto;
    rewrite Hauth; auto.
Qed.

Lemma routes_behind_auth_witness :
  (λ _ : Middleware, false) authMiddleware = false
  ∧ route_request sample_matches (λ _, false) routes DELETE "/appointment/7"
    = Stopped authMiddleware.
Proof.
  split; [reflexivity|].
  destruct (routes_behind_auth sample_matches (λ _, false) DELETE
              "/appointment/7" eq_refl) as [(_ & Hm & _)|[(_ & Hm & _)|Hr]];
    [discriminate Hm|discriminate Hm|exact Hr].
Defined.

(** X17.  The three actions of the appointment controller are reached
    exactly by authenticated requests of their method whose path matches
    their route and none of the routes of that method registered before:
    [delete] by every authenticated DELETE on [/appointment/:id], [store] by
    a POST on [/appointment], [index] by a GET or HEAD on [/appointment]. *)
Theorem appointment_routes path_matches calls_next m path :
  let r := route_request path_matches calls_next routes m path in
  (r = Handled AppointmentController_delete
   ↔ calls_next authMiddleware = true ∧ m = DELETE
     ∧ path_matches "/appointment/:id" path = true)
  ∧ (r = Handled AppointmentController_store
     ↔ calls_next authMiddleware = true ∧ m = POST
       ∧ path_matches "/appointment" path = true
       ∧ path_matches "/users" path = false
       ∧ path_matches "/sessions" path = false
       ∧ path_matches "/files" path = false)
  ∧ (r = Handled AppointmentController_index
     ↔ calls_next authMiddleware = true ∧ (m = GET ∨ m = HEAD)
       ∧ path_matches "/appointment" path = true
       ∧ path_matches "/providers" path = false
       ∧ path_matches "/providers/:providerId/available" path = false).
Proof.
  intros r. subst r. unfold routes.
  destruct m; route_cases; intuition congruence.
Qed.

Lemma appointment_routes_witness :
  route_request sample_matches (λ _, true) routes DELETE "/appointment/7"
  = Handled AppointmentController_delete
  ∧ route_request sample_matches (λ _, true) routes POST "/appointment"
    = Handled AppointmentController_store.
Proof.
  destruct (appointment_routes sample_matches (λ _, true) DELETE
              "/appointment/7") as [Hdel _].
  destruct (appointment_routes sample_matches (λ _, true) POST
              "/appointment") as (_ & Hstore & _).
  split; [apply Hdel|apply Hstore]; by vm_compute.
Defined.

(** ** When a cancellation goes through *)

(** X18.  With the queue accepting the job, [delete] answers 200 exactly
    when the appointment exists, belongs to the requester, starts no sooner
    than two hours after the first clock reading and is not canceled; in
    every other case with an existing appointment it answers 401 and writes
    nothing. *)
Theorem cancel_succeeds_iff userId k now1 now2 db :
  (cancel_succeeds (delete userId k now1 now2 true db)
   ↔ ∃ a, appointments db !! k = Some a ∧ user_id a = userId
          ∧ now1 ≤ date a - 2 * HOUR ∧ canceled_at a = None)
  ∧ (is_Some (appointments db !! k) →
     ¬ cancel_succeeds (delete userId k now1 now2 true db) →
     ∃ e, delete userId k now1 now2 true db = (Sent (delete_error e), db)).
Proof.
  rewrite delete_unfold. unfold cancel_succeeds, subHours.
  destruct (appointments db !! k) as [a|] eqn:Hk; cbn.
  - destruct (Z.eqb_spec (user_id a) userId) as [Hu|Hu]; cbn.
    + destruct (Z.ltb_spec (date a - 2 * HOUR) now1); cbn.
      * split; [|by eauto].
        split; [intros [i Hi]; discriminate|].
        intros (a' & [= <-] & _ & Hnow & _). lia.
      * destruct (canceled_at a) eqn:Hc; cbn.
        -- split; [|by eauto].
           split; [intros [i Hi]; discriminate|].
           intros (a' & [= <-] & _ & _ & Hc'). congruence.
        -- split; [|intros _ Hno; destruct Hno; eauto].
           split; [|by eauto]. intros _. exists a. repeat split; auto.
    + split; [|by eauto].
      split; [intros [i Hi]; discriminate|].
      intros (a' & [= <-] & Hu' & _). done.
  - split; [|intros [a Ha]; discriminate].
    split; [intros [i Hi]; discriminate|].
    intros (a & Ha & _). discriminate.
Qed.

Lemma cancel_succeeds_iff_witness :
  is_Some (appointments db_canceled !! 1)
  ∧ ¬ cancel_succeeds
        (delete 1 1 (jan10_14h - DAY) (jan10_14h - DAY) true db_canceled)
  ∧ ∃ e, delete 1 1 (jan10_14h - DAY) (jan10_14h - DAY) true db_canceled
         = (Sent (delete_error e), db_canceled).
Proof.
  assert (Hk : is_Some (appointments db_canceled !! 1))
    by (eexists; by vm_compute).
  assert (Hno : ¬ cancel_succeeds
                    (delete 1 1 (jan10_14h - DAY) (jan10_14h - DAY) true
                       db_canceled))
    by (intros [i Hi]; vm_compute in Hi; discriminate).
  split; [exact Hk|]. split; [exact Hno|].
  destruct (cancel_succeeds_iff 1 1 (jan10_14h - DAY) (jan10_14h - DAY)
              db_canceled) as [_ Hrej].
  exact (Hrej Hk Hno).
Defined.
